(** * Neurolous GriefBot backend: a shallow embedding of [backend/main.py]

    The development follows the layout of the Python module:
    persona management, ingestion, the text and image chat turns, the
    voice cache and the evals export.  External collaborators (the vector
    store, the language model, the speech engine, the text splitter) are
    behaviours supplied by an environment; everything the module itself
    computes is a Rocq function that evaluates. *)

From Stdlib Require Import ZArith Ascii String List Lia Bool Floats.
From Stdlib Require Import DecimalString Sorted Permutation.
From stdpp Require Import base option list gmap strings sorting.
Import ListNotations.

Local Open Scope Z_scope.

(** ** Python values *)

Module Py.

(** A call either returns or raises; [Raise] carries [str(e)]. *)
Inductive result (A : Type) : Type :=
| Ok (a : A)
| Raise (e : string).
Arguments Ok {A} a.
Arguments Raise {A} e.

Definition bind {A B} (r : result A) (k : A -> result B) : result B :=
  match r with
  | Ok a => k a
  | Raise e => Raise e
  end.

(** A Python [str] is held as the Rocq string of its UTF-8 bytes, so
    [text.encode('utf-8')] only changes the carrier. *)
Definition encode (s : string) : list Z :=
  map (fun c => Z.of_N (N_of_ascii c)) (list_ascii_of_string s).

Definition decode (bs : list Z) : string :=
  string_of_list_ascii (map (fun b => ascii_of_N (Z.to_N b)) bs).

(** Truthiness of a [str]: any non-empty string. *)
Definition truthy (s : string) : bool :=
  match s with
  | EmptyString => false
  | String _ _ => true
  end.

(** [str.isspace] on one code point (CPython's [_PyUnicode_IsWhitespace]). *)
Definition isspace (c : Z) : bool :=
  ((0x09 <=? c) && (c <=? 0x0D)) || ((0x1C <=? c) && (c <=? 0x20))
  || (c =? 0x85) || (c =? 0xA0) || (c =? 0x1680)
  || ((0x2000 <=? c) && (c <=? 0x200A))
  || (c =? 0x2028) || (c =? 0x2029) || (c =? 0x202F) || (c =? 0x205F)
  || (c =? 0x3000).

(** UTF-8 encoding of one code point. *)
Definition utf8 (c : Z) : list Z :=
  if c <? 0x80 then [c]
  else if c <? 0x800 then [0xC0 + c / 64; 0x80 + c mod 64]
  else if c <? 0x10000 then
    [0xE0 + c / 4096; 0x80 + (c / 64) mod 64; 0x80 + c mod 64]
  else [0xF0 + c / 262144; 0x80 + (c / 4096) mod 64;
        0x80 + (c / 64) mod 64; 0x80 + c mod 64].

(** Whitespace as it appears in the encoded text, by sequence length
    (no whitespace character needs four bytes). *)
Definition space1 (b : Z) : bool := (b <? 0x80) && isspace b.
Definition space2 (b1 b2 : Z) : bool :=
  let c := (b1 - 0xC0) * 64 + (b2 - 0x80) in
  (0xC0 <=? b1) && (b1 <? 0xE0) && (0x80 <=? b2) && (b2 <? 0xC0)
  && (0x80 <=? c) && isspace c.
Definition space3 (b1 b2 b3 : Z) : bool :=
  let c := (b1 - 0xE0) * 4096 + (b2 - 0x80) * 64 + (b3 - 0x80) in
  (0xE0 <=? b1) && (b1 <? 0xF0) && (0x80 <=? b2) && (b2 <? 0xC0)
  && (0x80 <=? b3) && (b3 <? 0xC0)
  && (0x800 <=? c) && isspace c.

(** Drop whitespace characters from the front.  The three tests are
    parameters so that the same scan serves the reversed text. *)
Fixpoint drop_spaces (s1 : Z -> bool) (s2 : Z -> Z -> bool)
    (s3 : Z -> Z -> Z -> bool) (bs : list Z) : list Z :=
  match bs with
  | [] => []
  | b1 :: r1 =>
      if s1 b1 then drop_spaces s1 s2 s3 r1
      else match r1 with
           | [] => bs
           | b2 :: r2 =>
               if s2 b1 b2 then drop_spaces s1 s2 s3 r2
               else match r2 with
                    | [] => bs
                    | b3 :: r3 =>
                        if s3 b1 b2 b3 then drop_spaces s1 s2 s3 r3 else bs
                    end
           end
  end.

Definition lstrip_bytes (bs : list Z) : list Z :=
  drop_spaces space1 space2 space3 bs.

Definition rstrip_bytes (bs : list Z) : list Z :=
  rev (drop_spaces space1 (fun b2 b1 => space2 b1 b2)
         (fun b3 b2 b1 => space3 b1 b2 b3) (rev bs)).

(** [s.strip()] *)
Definition strip (s : string) : string :=
  decode (rstrip_bytes (lstrip_bytes (encode s))).

(** The encoded text of a list of code points. *)
Definition of_codepoints (cps : list Z) : string :=
  decode (concat (map utf8 cps)).

(** Empty or whitespace-only text: the encoding of code points that are
    all whitespace. *)
Definition whitespace_only (s : string) : Prop :=
  exists cps, forallb isspace cps = true /\ s = of_codepoints cps.

(** ["sep".join(parts)] *)
Fixpoint join (sep : string) (parts : list string) : string :=
  match parts with
  | [] => EmptyString
  | [p] => p
  | p :: rest => p +:+ sep +:+ join sep rest
  end.

(** The text obtained by appending fragments in order ([full_response += token]). *)
Definition concat_str (parts : list string) : string :=
  fold_right String.append EmptyString parts.

End Py.
Export Py.

(** ** hashlib.md5 (RFC 1321) *)

Module MD5.

Definition mask : Z := 0xFFFFFFFF.
Definition add32 (x y : Z) : Z := Z.land (x + y) mask.
Definition not32 (x : Z) : Z := Z.lxor x mask.
Definition rotl32 (x : Z) (n : Z) : Z :=
  Z.land (Z.lor (Z.shiftl x n) (Z.shiftr x (32 - n))) mask.

Definition K : list Z :=
  [ 0xd76aa478; 0xe8c7b756; 0x242070db; 0xc1bdceee;
    0xf57c0faf; 0x4787c62a; 0xa8304613; 0xfd469501;
    0x698098d8; 0x8b44f7af; 0xffff5bb1; 0x895cd7be;
    0x6b901122; 0xfd987193; 0xa679438e; 0x49b40821;
    0xf61e2562; 0xc040b340; 0x265e5a51; 0xe9b6c7aa;
    0xd62f105d; 0x02441453; 0xd8a1e681; 0xe7d3fbc8;
    0x21e1cde6; 0xc33707d6; 0xf4d50d87; 0x455a14ed;
    0xa9e3e905; 0xfcefa3f8; 0x676f02d9; 0x8d2a4c8a;
    0xfffa3942; 0x8771f681; 0x6d9d6122; 0xfde5380c;
    0xa4beea44; 0x4bdecfa9; 0xf6bb4b60; 0xbebfbc70;
    0x289b7ec6; 0xeaa127fa; 0xd4ef3085; 0x04881d05;
    0xd9d4d039; 0xe6db99e5; 0x1fa27cf8; 0xc4ac5665;
    0xf4292244; 0x432aff97; 0xab9423a7; 0xfc93a039;
    0x655b59c3; 0x8f0ccc92; 0xffeff47d; 0x85845dd1;
    0x6fa87e4f; 0xfe2ce6e0; 0xa3014314; 0x4e0811a1;
    0xf7537e82; 0xbd3af235; 0x2ad7d2bb; 0xeb86d391 ].

Definition S : list Z :=
  [ 7; 12; 17; 22; 7; 12; 17; 22; 7; 12; 17; 22; 7; 12; 17; 22;
    5; 9; 14; 20; 5; 9; 14; 20; 5; 9; 14; 20; 5; 9; 14; 20;
    4; 11; 16; 23; 4; 11; 16; 23; 4; 11; 16; 23; 4; 11; 16; 23;
    6; 10; 15; 21; 6; 10; 15; 21; 6; 10; 15; 21; 6; 10; 15; 21 ].

Record state := St { sA : Z; sB : Z; sC : Z; sD : Z }.

Definition init : state :=
  St 0x67452301 0xefcdab89 0x98badcfe 0x10325476.

(** Message padding: one 0x80 byte, zeros up to 56 modulo 64, then the bit
    length as a 64-bit little-endian integer. *)
Fixpoint le_bytes (n : nat) (x : Z) : list Z :=
  match n with
  | O => []
  | Datatypes.S n' => x mod 256 :: le_bytes n' (x / 256)
  end.

Definition pad (msg : list Z) : list Z :=
  let len := Z.of_nat (length msg) in
  let zeros := Z.to_nat ((55 - len) mod 64) in
  msg ++ [0x80] ++ repeat 0 zeros ++ le_bytes 8 ((8 * len) mod 2 ^ 64).

Fixpoint le_word (bs : list Z) : Z :=
  match bs with
  | [] => 0
  | b :: r => b + 256 * le_word r
  end.

(** The sixteen little-endian words of one 64-byte block. *)
Fixpoint words (n : nat) (block : list Z) : list Z :=
  match n with
  | O => []
  | Datatypes.S n' => le_word (firstn 4 block) :: words n' (skipn 4 block)
  end.

Definition round (M : list Z) (st : state) (i : nat) : state :=
  let '(St a b c d) := st in
  let iz := Z.of_nat i in
  let '(f, g) :=
    if iz <? 16 then (Z.lor (Z.land b c) (Z.land (not32 b) d), iz)
    else if iz <? 32 then
      (Z.lor (Z.land d b) (Z.land (not32 d) c), (5 * iz + 1) mod 16)
    else if iz <? 48 then (Z.lxor b (Z.lxor c d), (3 * iz + 5) mod 16)
    else (Z.lxor c (Z.lor b (not32 d)), (7 * iz) mod 16) in
  let f' := add32 (add32 (add32 f a) (nth i K 0)) (nth (Z.to_nat g) M 0) in
  St d (add32 b (rotl32 f' (nth i S 0))) b c.

Definition compress (st : state) (block : list Z) : state :=
  let M := words 16 block in
  let '(St a b c d) := fold_left (round M) (seq 0 64) st in
  St (add32 (sA st) a) (add32 (sB st) b) (add32 (sC st) c) (add32 (sD st) d).

Fixpoint blocks (n : nat) (bs : list Z) : list (list Z) :=
  match n with
  | O => []
  | Datatypes.S n' => firstn 64 bs :: blocks n' (skipn 64 bs)
  end.

Definition digest (msg : list Z) : list Z :=
  let p := pad msg in
  let st := fold_left compress (blocks (length p / 64) p) init in
  le_bytes 4 (sA st) ++ le_bytes 4 (sB st)
    ++ le_bytes 4 (sC st) ++ le_bytes 4 (sD st).

Definition hex_digit (n : Z) : ascii :=
  ascii_of_N (Z.to_N (if n <? 10 then 48 + n else 87 + n)).

Fixpoint hex (bs : list Z) : string :=
  match bs with
  | [] => EmptyString
  | b :: r => String (hex_digit (b / 16)) (String (hex_digit (b mod 16)) (hex r))
  end.

(** [hashlib.md5(data).hexdigest()] *)
Definition hexdigest (msg : list Z) : string := hex (digest msg).

End MD5.


(** ** The world the backend runs in *)

(** One stored knowledge item of the Chroma collection: the embedded
    text and its metadata dictionary. *)
Record item := Item {
  document : string;
  metadata : gmap string string
}.

(** One row of the [turns] table.  A timestamp is the reading of the
    logical clock taken by [datetime.now()]. *)
Record turn := Turn {
  turn_id : nat;
  timestamp : nat;
  user_msg : string;
  bot_res : string;
  lat : float;
  lon : float;
  type_ : string
}.

(** Contents of [CONFIG_PATH] as [json.load] sees them: no file, text
    that does not parse, or a JSON object of string fields. *)
Inductive config_file :=
| Absent
| Malformed (e : string)
| Object (d : gmap string string).

(** Calls into the external services that may raise. *)
Inductive op :=
| StoreSearch | StoreGet | StoreDelete | StoreAdd | DbInsert.

(** The loaded Chatterbox engine: [generate], given the text and the
    optional [audio_prompt_path], and the conversion of its tensor to the
    bytes of the WAV file (squeeze, scale to int16, [scipy_wavfile.write]
    at the engine's sample rate), which is floating-point work left to
    the engine's side of the interface. *)
Record VoiceEngine := {
  tensor : Type;
  tts_generate : string -> option string -> result tensor;
  wav_file : tensor -> result (list Z)
}.

(** Behaviour of the collaborators for the duration of a request: which
    service calls raise, the relevance score behind the vector search,
    the language model in streaming mode (the tokens, then the exception
    that ends the stream if any) and in one-shot mode with an image, the
    voice engine if it loaded, the text splitter, and the parsers that
    read an uploaded file. *)
Record Env := {
  fault : op -> option string;
  similarity : string -> string -> Z;
  ollama_stream : string -> list string * option string;
  ollama_generate : string -> option (list Z) -> result string;
  voice_engine : option VoiceEngine;
  split_text : string -> list string;
  csv_rows : string -> result (list (gmap string string));
  fitz_pages : string -> result (list string);
  read_text : string -> result string
}.

(** The mutable state: the persona file and how often it was written,
    the Chroma collection keyed by id, the [turns] table with its
    AUTOINCREMENT counter, the other files on disk, the logical clock,
    the fragments delivered to clients with the time of delivery, and
    the number of calls made to the voice engine. *)
Record World := {
  config : config_file;
  config_writes : nat;
  collection : gmap nat item;
  turns : list turn;
  turn_seq : nat;
  files : gmap string (list Z);
  clock : nat;
  wire : list (nat * string);
  engine_calls : nat
}.

Definition set_config (c : config_file) (w : World) : World :=
  {| config := c; config_writes := Datatypes.S (config_writes w);
     collection := collection w; turns := turns w; turn_seq := turn_seq w;
     files := files w; clock := clock w; wire := wire w;
     engine_calls := engine_calls w |}.

Definition set_collection (c : gmap nat item) (w : World) : World :=
  {| config := config w; config_writes := config_writes w;
     collection := c; turns := turns w; turn_seq := turn_seq w;
     files := files w; clock := clock w; wire := wire w;
     engine_calls := engine_calls w |}.

Definition set_files (f : gmap string (list Z)) (w : World) : World :=
  {| config := config w; config_writes := config_writes w;
     collection := collection w; turns := turns w; turn_seq := turn_seq w;
     files := f; clock := clock w; wire := wire w;
     engine_calls := engine_calls w |}.

(** Appending a row: SQLite assigns the next AUTOINCREMENT id. *)
Definition push_turn (mk : nat -> turn) (w : World) : World :=
  {| config := config w; config_writes := config_writes w;
     collection := collection w;
     turns := turns w ++ [mk (Datatypes.S (turn_seq w))];
     turn_seq := Datatypes.S (turn_seq w);
     files := files w; clock := clock w; wire := wire w;
     engine_calls := engine_calls w |}.

(** Reading the clock advances it. *)
Definition advance (w : World) : World :=
  {| config := config w; config_writes := config_writes w;
     collection := collection w; turns := turns w; turn_seq := turn_seq w;
     files := files w; clock := Datatypes.S (clock w); wire := wire w;
     engine_calls := engine_calls w |}.

(** A fragment handed to the client is stamped with the clock. *)
Definition emit (token : string) (w : World) : World :=
  {| config := config w; config_writes := config_writes w;
     collection := collection w; turns := turns w; turn_seq := turn_seq w;
     files := files w; clock := Datatypes.S (clock w);
     wire := wire w ++ [(clock w, token)];
     engine_calls := engine_calls w |}.

Definition count_engine_call (w : World) : World :=
  {| config := config w; config_writes := config_writes w;
     collection := collection w; turns := turns w; turn_seq := turn_seq w;
     files := files w; clock := clock w; wire := wire w;
     engine_calls := Datatypes.S (engine_calls w) |}.

(** Statements that read and write the world and may raise. *)
Definition M (A : Type) : Type := World -> result A * World.

Definition ret {A} (a : A) : M A := fun w => (Ok a, w).
Definition raise {A} (e : string) : M A := fun w => (Raise e, w).
Definition bindM {A B} (c : M A) (k : A -> M B) : M B :=
  fun w => match c w with
           | (Ok a, w') => k a w'
           | (Raise e, w') => (Raise e, w')
           end.
Definition lift {A} (r : result A) : M A := fun w => (r, w).
Definition modify (f : World -> World) : M unit := fun w => (Ok tt, f w).
Definition gets {A} (f : World -> A) : M A := fun w => (Ok (f w), w).

(** [try: c except Exception as e: h e] *)
Definition try_except {A} (c : M A) (h : string -> M A) : M A :=
  fun w => match c w with
           | (Ok a, w') => (Ok a, w')
           | (Raise e, w') => h e w'
           end.

Declare Scope py_scope.
Delimit Scope py_scope with py.
Notation "'let!' x ':=' c 'in' k" := (bindM c (fun x => k))
  (at level 10, x name, c at level 100, k at level 200) : py_scope.

(** A call into a service raises when the environment says so. *)
Definition guard (env : Env) (o : op) : M unit :=
  match fault env o with
  | Some e => raise e
  | None => ret tt
  end.

(** What an endpoint sends back. *)
Inductive response (A : Type) : Type :=
| Http200 (body : A)
| HttpError (status : Z) (detail : string).
Arguments Http200 {A} body.
Arguments HttpError {A} status detail.

(** ** Persona management *)

Module Persona.

Local Open Scope string_scope.

Definition default_persona : list (string * string) :=
  [ ("deceased_name", "loved one's name");
    ("user_name", "your name");
    ("user_nickname", "ac3");
    ("relationship", "Father");
    ("date_of_death", "June 22, 2023");
    ("personality_traits", "Warm, wise, philosophical.");
    ("philosophy",
     "The Double-You Book: Balancing Spirit (Intellect) and Will (Emotion) through the Heart.");
    ("achievements", "Retired LA County Firefighter, Air Force Veteran.");
    ("dimension", "heaven") ].

Definition defaults : list (string * string) :=
  [ ("deceased_name", "Subject Name");
    ("user_name", "User");
    ("user_nickname", "User");
    ("relationship", "Friend");
    ("date_of_death", "2023");
    ("personality_traits", "Kind, wise.");
    ("philosophy", "Stoicism");
    ("achievements", EmptyString);
    ("dimension", "heaven") ].

(** The recognized schema: the keys of [defaults]. *)
Definition schema_keys : list string := map fst defaults.

(** [json.dump(data, f)] on [CONFIG_PATH] *)
Definition save_persona_config (data : gmap string string) : M unit :=
  modify (set_config (Object data)).

(** One iteration of the migration loop over [defaults.items()]. *)
Definition migrate_key (acc : gmap string string * bool) (kv : string * string)
    : gmap string string * bool :=
  let '(data, needs_save) := acc in
  match data !! fst kv with
  | None => (<[fst kv := snd kv]> data, true)
  | Some _ => (data, needs_save)
  end.

(** Whether the loop finds a default key that [data] lacks. *)
Definition missing_some (d : gmap string string) : bool :=
  existsb (fun kv => bool_decide (d !! fst kv = None)) defaults.

Definition load_persona_config : M (gmap string string) :=
  (let! exists_ :=
     gets (fun w => match config w with Absent => false | _ => true end) in
   let! _ := if exists_ : bool then ret tt
             else save_persona_config (list_to_map default_persona) in
   let! file := gets config in
   match file with
   | Object data =>
       let '(data', needs_save) := fold_left migrate_key defaults (data, false) in
       let! _ := if needs_save then save_persona_config data' else ret tt in
       ret data'
   | Malformed e => raise e
   | Absent => raise "FileNotFoundError"
   end)%py.

(** [p[key]] *)
Definition getitem (p : gmap string string) (key : string) : M string :=
  match p !! key with
  | Some v => ret v
  | None => raise ("KeyError: " +:+ key)
  end.

Definition nl : string := String (ascii_of_N 10) EmptyString.
Definition dq : string := String (ascii_of_N 34) EmptyString.

Definition build_dynamic_system_prompt : M string :=
  (let! p := load_persona_config in
   let! deceased_name := getitem p "deceased_name" in
   let! relationship := getitem p "relationship" in
   let! user_name := getitem p "user_name" in
   let! user_nickname := getitem p "user_nickname" in
   let! personality_traits := getitem p "personality_traits" in
   let! philosophy := getitem p "philosophy" in
   let! achievements := getitem p "achievements" in
   let! date_of_death := getitem p "date_of_death" in
   let! dimension := getitem p "dimension" in
   ret (nl
     +:+ "ROLE: You are the digital persona of " +:+ deceased_name +:+ "." +:+ nl
     +:+ "RELATIONSHIP: You are the " +:+ relationship +:+ " to " +:+ user_name
     +:+ " (nickname: " +:+ user_nickname +:+ ")." +:+ nl
     +:+ "TONE: " +:+ personality_traits +:+ nl
     +:+ "PHILOSOPHY: " +:+ philosophy +:+ nl
     +:+ "ACHIEVEMENTS: " +:+ achievements +:+ nl
     +:+ "CURRENT STATE: You passed away in " +:+ date_of_death
     +:+ " and are speaking from " +:+ dimension +:+ "." +:+ nl
     +:+ nl
     +:+ "INSTRUCTIONS:" +:+ nl
     +:+ "1. Speak exclusively in the FIRST PERSON (" +:+ dq +:+ "I" +:+ dq +:+ ")." +:+ nl
     +:+ "2. Convert any memories provided in the context from "
     +:+ dq +:+ "You" +:+ dq +:+ " to " +:+ dq +:+ "I" +:+ dq +:+ "." +:+ nl
     +:+ "3. Keep responses concise, warm, and conversational." +:+ nl
     +:+ "4. Do not act like an AI assistant. You are the person described above."
     +:+ nl))%py.

End Persona.

(** ** The knowledge store (Chroma collection) *)

Module Store.

Local Open Scope string_scope.

(** The filter [where={"type": ty}]. *)
Definition has_type (ty : string) (it : item) : bool :=
  bool_decide (metadata it !! "type" = Some ty).

(** [collection.get(where={"type": ty})['ids']] *)
Definition collection_get (env : Env) (ty : string) : M (list nat) :=
  (let! _ := guard env StoreGet in
   gets (fun w =>
     map fst (filter (fun kv => has_type ty (snd kv) = true)
                (map_to_list (collection w)))))%py.

(** [collection.delete(ids=ids)] *)
Definition collection_delete (env : Env) (ids : list nat) : M unit :=
  (let! _ := guard env StoreDelete in
   modify (fun w => set_collection (foldr delete (collection w) ids) w))%py.

(** Insertion of the texts one by one, each under an id not yet in use. *)
Fixpoint add_all (texts : list string) (metadatas : list (gmap string string))
    (c : gmap nat item) : gmap nat item :=
  match texts, metadatas with
  | t :: texts', m :: metadatas' =>
      add_all texts' metadatas' (<[fresh (dom c) := Item t m]> c)
  | _, _ => c
  end.

(** [vector_db.add_texts(texts=..., metadatas=...)] *)
Definition add_texts (env : Env) (texts : list string)
    (metadatas : list (gmap string string)) : M unit :=
  (let! _ := guard env StoreAdd in
   modify (fun w => set_collection (add_all texts metadatas (collection w)) w))%py.

(** Stable insertion sort by decreasing score. *)
Fixpoint insert_desc {A} (score : A -> Z) (x : A) (l : list A) : list A :=
  match l with
  | [] => [x]
  | y :: l' =>
      if (score x <? score y)%Z then y :: insert_desc score x l' else x :: l
  end.

Definition rank {A} (score : A -> Z) (l : list A) : list A :=
  fold_right (insert_desc score) [] l.

(** [vector_db.similarity_search(query, k=k)], as the page contents. *)
Definition similarity_search (env : Env) (query : string) (k : nat)
    : M (list string) :=
  (let! _ := guard env StoreSearch in
   gets (fun w =>
     firstn k (rank (similarity env query)
                 (map (fun kv => document (snd kv))
                    (map_to_list (collection w))))))%py.

End Store.

(** ** Ingestion *)

Module Ingest.

Local Open Scope string_scope.

(** [a or b] on values that are [None] or a [str]. *)
Definition or_ (a b : option string) : option string :=
  match a with
  | Some s => if truthy s then a else b
  | None => b
  end.

(** [row.get('text_chunk') or row.get('text') or row.get('fact')] *)
Definition row_text (row : gmap string string) : option string :=
  or_ (or_ (row !! "text_chunk") (row !! "text")) (row !! "fact").

(** A row supplies usable text when that expression is truthy. *)
Definition usable (row : gmap string string) : bool :=
  match row_text row with
  | Some text => truthy text
  | None => false
  end.

(** The body of the loop over the CSV rows. *)
Definition collect_row (acc : list string * list (gmap string string))
    (row : gmap string string) : list string * list (gmap string string) :=
  let '(documents, metadatas) := acc in
  let year := default "Unknown" (row !! "year") in
  match row_text row with
  | Some text =>
      if truthy text then
        ((documents ++ ["passage: " +:+ text])%list,
         (metadatas ++ [list_to_map [("source", "upload"); ("type", "fact");
                                     ("year", year); ("raw_text", text)]])%list)
      else acc
  | None => acc
  end.

(** The inner [try: ... except: pass] that clears a partition. *)
Definition clear_partition (env : Env) (ty : string) : M unit :=
  try_except
    (let! ids := Store.collection_get env ty in
     match ids with
     | [] => ret tt
     | _ :: _ => Store.collection_delete env ids
     end)%py
    (fun _ => ret tt).

Definition process_csv_ingestion (env : Env) (file_path : string) : M Z :=
  try_except
    (let! rows := lift (csv_rows env file_path) in
     let '(documents, metadatas) := fold_left collect_row rows ([], []) in
     match documents with
     | _ :: _ =>
         let! _ := clear_partition env "fact" in
         let! _ := Store.add_texts env documents metadatas in
         ret (Z.of_nat (length documents))
     | [] => ret 0
     end)%py
    (fun _ => ret (-1)).

(** The text of the document: the pages of the PDF appended in order, or
    the contents of the file. *)
Definition extract_text (env : Env) (file_path : string) (is_pdf : bool)
    : result string :=
  if is_pdf then
    bind (fitz_pages env file_path)
      (fun pages => Ok (fold_left String.append pages EmptyString))
  else read_text env file_path.

Definition process_philosophy_ingestion (env : Env) (file_path : string)
    (is_pdf : bool) : M Z :=
  try_except
    (let! full_text := lift (extract_text env file_path is_pdf) in
     if negb (truthy (strip full_text)) then ret (-2)
     else
       let chunks := split_text env full_text in
       match chunks with
       | _ :: _ =>
           let! _ := clear_partition env "philosophy" in
           let documents := map (fun c => "passage: " +:+ c) chunks in
           let metadatas :=
             map (fun _ => list_to_map [("source", "upload");
                                        ("type", "philosophy")]) chunks in
           let! _ := Store.add_texts env documents metadatas in
           ret (Z.of_nat (length chunks))
       | [] => ret 0
       end)%py
    (fun _ => ret (-1)).

(** [w'] is [w] with the partition [ty] of the collection replaced by the
    given items: they were inserted into what was left after every item
    of type [ty] had been deleted, the other items are the same before
    and after, and the items of type [ty] are the inserted ones. *)
Definition replaces (ty : string) (texts : list string)
    (metadatas : list (gmap string string)) (w w' : World) : Prop :=
  let kept := filter (fun kv => Store.has_type ty (snd kv) = false)
                (collection w) in
  w' = set_collection (Store.add_all texts metadatas kept) w
  /\ (forall id it, kept !! id = Some it -> Store.has_type ty it = false)
  /\ (forall id it, Store.has_type ty it = false ->
       collection w' !! id = Some it <-> collection w !! id = Some it)
  /\ (forall id it, collection w' !! id = Some it ->
       Store.has_type ty it = true ->
       In (document it, metadata it) (combine texts metadatas))
  /\ size (collection w') = (size kept + length texts)%nat.

(** After the ingestion a search brings back only inserted texts or
    documents of the other partitions. *)
Definition retrieves_only (env : Env) (ty : string) (texts : list string)
    (w w' : World) : Prop :=
  forall query k results w'' doc,
    Store.similarity_search env query k w' = (Ok results, w'') ->
    In doc results ->
    In doc texts
    \/ exists id it, collection w !! id = Some it
                     /\ Store.has_type ty it = false /\ document it = doc.

End Ingest.

(** ** Chat turns *)

Module Chat.

Local Open Scope string_scope.
Import Persona.

(** [datetime.now()] *)
Definition now : M nat :=
  fun w => (Ok (clock w), advance w).

(** The [INSERT INTO turns] statement with its commit. *)
Definition insert_turn (env : Env) (mk : nat -> turn) : M unit :=
  (let! _ := guard env DbInsert in modify (push_turn mk))%py.

(** Steps 1 and 2 of [generate_stream]: retrieval and prompt assembly. *)
Definition text_prompt (env : Env) (message : string) : M string :=
  (let! results := Store.similarity_search env message 3 in
   let context := join nl results in
   let! system_prompt := build_dynamic_system_prompt in
   ret (system_prompt +:+ nl +:+ nl +:+ "MEMORY CONTEXT:" +:+ nl +:+ context
        +:+ nl +:+ nl +:+ "USER: " +:+ message +:+ nl +:+ "YOU:"))%py.

(** Step 4 of [generate_stream]. *)
Definition save_text_turn (env : Env) (message : string) (lat lon : float)
    (full_response : string) : M unit :=
  (let! timestamp := now in
   insert_turn env
     (fun id => Turn id timestamp message full_response lat lon "text"))%py.

(** The generator object behind [generate_stream()]: not yet started,
    suspended at the [yield] with its locals, or finished. *)
Inductive gen :=
| Created
| Suspended (full_response : string) (rest : list string) (fin : option string)
| Closed.

(** What one [__anext__] call gives the caller. *)
Inductive signal :=
| Yield (token : string)
| StopIteration
| Error (e : string).

(** The [for chunk in stream] loop from its head up to the next [yield],
    or through step 4 when the stream is exhausted. *)
Definition stream_loop (env : Env) (message : string) (lat lon : float)
    (full_response : string) (rest : list string) (fin : option string)
    (w : World) : signal * gen * World :=
  match rest with
  | token :: rest' =>
      (Yield token, Suspended (full_response +:+ token) rest' fin, w)
  | [] =>
      match fin with
      | Some e => (Error e, Closed, w)
      | None =>
          match save_text_turn env message lat lon full_response w with
          | (Ok _, w') => (StopIteration, Closed, w')
          | (Raise e, w') => (Error e, Closed, w')
          end
      end
  end.

Definition resume (env : Env) (message : string) (lat lon : float)
    (g : gen) (w : World) : signal * gen * World :=
  match g with
  | Created =>
      match text_prompt env message w with
      | (Ok full_prompt, w1) =>
          let '(tokens, fin) := ollama_stream env full_prompt in
          stream_loop env message lat lon EmptyString tokens fin w1
      | (Raise e, w1) => (Error e, Closed, w1)
      end
  | Suspended full_response rest fin =>
      stream_loop env message lat lon full_response rest fin w
  | Closed => (StopIteration, Closed, w)
  end.

(** How the streamed response ended. *)
Inductive ending :=
| Completed
| Disconnected
| Failed (e : string).

(** The streaming response pulling from the generator.  [pulls] is the
    number of [__anext__] calls made while the client is connected; once
    they are used up the client is gone and the generator is closed where
    it is suspended. *)
Fixpoint stream_response (env : Env) (message : string) (lat lon : float)
    (pulls : nat) (g : gen) (w : World) : ending * World :=
  match pulls with
  | O => (Disconnected, w)
  | Datatypes.S pulls' =>
      match resume env message lat lon g w with
      | (Yield token, g', w') =>
          stream_response env message lat lon pulls' g' (emit token w')
      | (StopIteration, _, w') => (Completed, w')
      | (Error e, _, w') => (Failed e, w')
      end
  end.

Definition chat_text (env : Env) (message : string) (lat lon : float)
    (pulls : nat) (w : World) : ending * World :=
  stream_response env message lat lon pulls Created w.

(** The world after the fragments of [rest] have been handed out. *)
Fixpoint emit_all (rest : list string) (w : World) : World :=
  match rest with
  | [] => w
  | token :: rest' => emit_all rest' (emit token w)
  end.

(** The fragments put on the wire between two worlds. *)
Definition sent (w w' : World) : list (nat * string) :=
  skipn (length (wire w)) (wire w').

(** [w'] differs from [w] in the persona file at most. *)
Definition same_but_config (w w' : World) : Prop :=
  collection w' = collection w /\ turns w' = turns w
  /\ turn_seq w' = turn_seq w /\ files w' = files w
  /\ clock w' = clock w /\ wire w' = wire w
  /\ engine_calls w' = engine_calls w.

(** [os.remove(path)] *)
Definition os_remove (path : string) : M unit :=
  fun w => match files w !! path with
           | Some _ => (Ok tt, set_files (delete path (files w)) w)
           | None => (Raise "FileNotFoundError", w)
           end.

(** [os.path.exists(path)] *)
Definition os_path_exists (path : string) : M bool :=
  gets (fun w => bool_decide (is_Some (files w !! path))).

(** The [try] block of [chat_image]. *)
Definition image_turn (env : Env) (message temp_file : string) : M string :=
  (let! results := Store.similarity_search env message 3 in
   let context := join nl results in
   let! system_prompt := build_dynamic_system_prompt in
   let prompt := system_prompt +:+ nl +:+ "Context: " +:+ context +:+ nl
                 +:+ "User: " +:+ message +:+ nl +:+ "You:" in
   let! image := gets (fun w => files w !! temp_file) in
   let! bot_res := lift (ollama_generate env prompt image) in
   let! timestamp := now in
   let! _ := insert_turn env
     (fun id => Turn id timestamp ("[Image] " +:+ message) bot_res
                  0%float 0%float "image") in
   let! _ := os_remove temp_file in
   ret bot_res)%py.

(** An exception that no handler of the endpoint catches reaches the
    framework, which answers with its own 500. *)
Definition serve {A} (c : M (response A)) (w : World) : response A * World :=
  match c w with
  | (Ok r, w') => (r, w')
  | (Raise _, w') => (HttpError 500 "Internal Server Error", w')
  end.

Definition chat_image (env : Env) (message filename : string)
    (upload : list Z) : World -> response string * World :=
  let temp_file := "temp_" +:+ filename in
  serve
    (let! _ := modify (fun w => set_files (<[temp_file := upload]> (files w)) w) in
     try_except
       (let! bot_res := image_turn env message temp_file in
        ret (Http200 bot_res))
       (fun e =>
          let! present := os_path_exists temp_file in
          let! _ := if present : bool then os_remove temp_file else ret tt in
          ret (HttpError 500 e)))%py.

End Chat.

(** ** Voice cache *)

Module Voice.

Local Open Scope string_scope.

Definition VOICE_CACHE_PATH : string := "./voice_cache".
Definition SPEAKER_WAV : string :=
  "../VoiceCloning/voice_samples/AC2_22050_Hz_16_bit_7s.wav".

Definition get_voice_cache_path (text : string) : string :=
  let text_hash := MD5.hexdigest (encode text) in
  VOICE_CACHE_PATH +:+ "/" +:+ text_hash +:+ ".wav".

(** [not text or not text.strip()] *)
Definition blank (text : string) : bool :=
  negb (truthy text) || negb (truthy (strip text)).

(** The [try] block of [generate_voice] on a cache miss. *)
Definition synthesize (eng : VoiceEngine) (text cache_path : string)
    : M (list Z) :=
  (let! sample := Chat.os_path_exists SPEAKER_WAV in
   let! _ := modify count_engine_call in
   let! wav := lift (tts_generate eng text
                       (if sample : bool then Some SPEAKER_WAV else None)) in
   let! bytes := lift (wav_file eng wav) in
   let! _ := modify (fun w => set_files (<[cache_path := bytes]> (files w)) w) in
   ret bytes)%py.

Definition generate_voice (env : Env) (text : string) (w : World)
    : response (list Z) * World :=
  match voice_engine env with
  | None => (HttpError 503 "Voice engine not loaded.", w)
  | Some eng =>
      if blank text then
        (HttpError 400 "Text parameter cannot be empty.", w)
      else
        let cache_path := get_voice_cache_path text in
        match files w !! cache_path with
        | Some bytes => (Http200 bytes, w)
        | None =>
            match synthesize eng text cache_path w with
            | (Ok bytes, w') => (Http200 bytes, w')
            | (Raise e, w') => (HttpError 500 e, w')
            end
        end
  end.

End Voice.

(** ** Evals export *)

Module Evals.

Local Open Scope string_scope.








End Evals.

(** ** Concrete environments and worlds *)

Module Examples.

Local Open Scope string_scope.

(** A toy engine whose waveform is the bytes of the text. *)
Definition echo_engine : VoiceEngine :=
  {| tensor := list Z;
     tts_generate := fun text _ => Ok (encode text);
     wav_file := fun wav => Ok wav |}.

(** The three rows of the facts CSV used as the running example. *)
Definition facts_rows : list (gmap string string) :=
  [ list_to_map [("text_chunk", "A"); ("year", "1990")];
    list_to_map [("text", "B")];
    list_to_map [("other", "x")] ].

(** All services up. *)
Definition env_ok : Env :=
  {| fault := fun _ => None;
     similarity := fun query doc =>
                     if String.eqb doc ("passage: " +:+ query) then 1 else 0;
     ollama_stream := fun _ => (["Hel"; "lo"; "!"], None);
     ollama_generate := fun _ _ => Ok "A photo of us.";
     voice_engine := Some echo_engine;
     split_text := fun text => [text];
     csv_rows := fun _ => Ok facts_rows;
     fitz_pages := fun _ => Ok [" "; Persona.nl];
     read_text := fun _ => Ok "Be kind." |}.

Definition world0 : World :=
  {| config := Absent; config_writes := 0; collection := ∅; turns := [];
     turn_seq := 0; files := ∅; clock := 0; wire := []; engine_calls := 0 |}.

(** A persona file written before the schema grew. *)
Definition old_persona : gmap string string :=
  list_to_map [("deceased_name", "Arvel"); ("relationship", "Father")].

Definition old_world : World :=
  {| config := Object old_persona; config_writes := 0; collection := ∅;
     turns := []; turn_seq := 0; files := ∅; clock := 0; wire := [];
     engine_calls := 0 |}.




(** The store refuses metadata lookups; everything else works. *)
Definition env_get_down : Env :=
  {| fault := fun o => match o with
                       | StoreGet => Some "collection unavailable"
                       | _ => None
                       end;
     similarity := similarity env_ok;
     ollama_stream := ollama_stream env_ok;
     ollama_generate := ollama_generate env_ok;
     voice_engine := voice_engine env_ok;
     split_text := split_text env_ok; csv_rows := csv_rows env_ok;
     fitz_pages := fitz_pages env_ok; read_text := read_text env_ok |}.

(** A CSV whose rows carry no text under any accepted column. *)
Definition env_unusable : Env :=
  {| fault := fault env_ok; similarity := similarity env_ok;
     ollama_stream := ollama_stream env_ok;
     ollama_generate := ollama_generate env_ok;
     voice_engine := voice_engine env_ok;
     split_text := split_text env_ok;
     csv_rows := fun _ => Ok [ list_to_map [("other", "x")];
                               list_to_map [("text", EmptyString);
                                            ("year", "2001")] ];
     fitz_pages := fitz_pages env_ok; read_text := read_text env_ok |}.

(** The voice engine failed to load at start-up. *)
Definition env_no_voice : Env :=
  {| fault := fault env_ok; similarity := similarity env_ok;
     ollama_stream := ollama_stream env_ok;
     ollama_generate := ollama_generate env_ok;
     voice_engine := None;
     split_text := split_text env_ok; csv_rows := csv_rows env_ok;
     fitz_pages := fitz_pages env_ok; read_text := read_text env_ok |}.

(** A store that already holds the fact C and one philosophy chunk. *)
Definition fact_c : item :=
  Item "passage: C"
    (list_to_map [("source", "upload"); ("type", "fact");
                  ("year", "Unknown"); ("raw_text", "C")]).

Definition chunk_p : item :=
  Item "passage: Be kind."
    (list_to_map [("source", "upload"); ("type", "philosophy")]).

Definition world_c : World :=
  {| config := Absent; config_writes := 0;
     collection := <[0%nat := fact_c]> (<[1%nat := chunk_p]> ∅);
     turns := []; turn_seq := 0; files := ∅; clock := 0; wire := [];
     engine_calls := 0 |}.

End Examples.

(** ** Administration: persona update and uploads *)

Module Admin.

Local Open Scope string_scope.
Import Persona.

(** The nine form fields of [POST /admin/update]. *)
Record persona_form := {
  deceased_name : string;
  user_name : string;
  user_nickname : string;
  relationship : string;
  date_of_death : string;
  dimension : string;
  personality_traits : string;
  philosophy : string;
  achievements : string
}.

(** The dictionary literal handed to [p.update], in its order. *)
Definition form_items (f : persona_form) : list (string * string) :=
  [ ("deceased_name", deceased_name f);
    ("user_name", user_name f);
    ("user_nickname", user_nickname f);
    ("relationship", relationship f);
    ("date_of_death", date_of_death f);
    ("dimension", dimension f);
    ("personality_traits", personality_traits f);
    ("philosophy", philosophy f);
    ("achievements", achievements f) ].

(** [p.update(items)] *)
Definition dict_update (p : gmap string string)
    (items : list (string * string)) : gmap string string :=
  fold_left (fun acc kv => <[fst kv := snd kv]> acc) items p.

(** The confirmation page. *)
Definition saved_page : string :=
  nl +:+ "        <div style=" +:+ dq
  +:+ "font-family: sans-serif; text-align: center; padding: 50px;"
  +:+ dq +:+ ">" +:+ nl
  +:+ "            <h2 style=" +:+ dq +:+ "color: #059669;" +:+ dq
  +:+ ">Configuration Saved Successfully</h2>" +:+ nl
  +:+ "            <p>The persona has been updated.</p>" +:+ nl
  +:+ "            <a href='/admin' style=" +:+ dq
  +:+ "color: #4F46E5; font-weight: bold; text-decoration: none;"
  +:+ dq +:+ ">&larr; Return to Admin</a>" +:+ nl
  +:+ "        </div>" +:+ nl
  +:+ "    ".

Definition update_persona (f : persona_form)
    : World -> response string * World :=
  Chat.serve
    (let! p := load_persona_config in
     let! _ := save_persona_config (dict_update p (form_items f)) in
     ret (Http200 saved_page))%py.

(** [GET /api/persona] *)
Definition get_persona_api : World -> response (gmap string string) * World :=
  Chat.serve (let! p := load_persona_config in ret (Http200 p))%py.

(** [str(n)] for an [int]. *)
Definition str_int (n : Z) : string :=
  DecimalString.NilZero.string_of_int (Z.to_int n).

(** [s.endswith(suffix)] *)
Definition endswith (s suffix : string) : bool :=
  let n := String.length s in
  let m := String.length suffix in
  (m <=? n)%nat && String.eqb (substring (n - m) m s) suffix.

Definition upload_csv_endpoint (env : Env) (filename : string)
    (upload : list Z) : World -> response string * World :=
  let path := "temp_" +:+ filename in
  Chat.serve
    (let! _ := modify (fun w => set_files (<[path := upload]> (files w)) w) in
     let! count := Ingest.process_csv_ingestion env path in
     let! _ := Chat.os_remove path in
     ret (Http200 ("<h3>Ingested " +:+ str_int count
                   +:+ " facts. <a href='/dashboard'>Dashboard</a></h3>")))%py.

Definition upload_phi_endpoint (env : Env) (filename : string)
    (upload : list Z) : World -> response string * World :=
  let path := "temp_" +:+ filename in
  Chat.serve
    (let! _ := modify (fun w => set_files (<[path := upload]> (files w)) w) in
     let! count := Ingest.process_philosophy_ingestion env path
                     (endswith filename ".pdf") in
     let! _ := Chat.os_remove path in
     ret (Http200 ("<h3>Ingested " +:+ str_int count
                   +:+ " chunks. <a href='/dashboard'>Dashboard</a></h3>")))%py.

(** [w'] differs from [w] in the collection at most. *)
Definition same_but_collection (w w' : World) : Prop :=
  config w' = config w /\ config_writes w' = config_writes w
  /\ turns w' = turns w /\ turn_seq w' = turn_seq w
  /\ files w' = files w /\ clock w' = clock w /\ wire w' = wire w
  /\ engine_calls w' = engine_calls w.

End Admin.

(** ** History and statistics *)

Module History.

Local Open Scope string_scope.

(** One element of the answer of [GET /api/history]. *)
Record history_item := {
  id : nat;
  item_timestamp : nat;
  item_user_msg : string;
  item_bot_res : string
}.

(** Stable insertion sort for [ORDER BY timestamp DESC]. *)
Fixpoint insert_recent (r : turn) (l : list turn) : list turn :=
  match l with
  | [] => [r]
  | r' :: l' =>
      if (timestamp r' <=? timestamp r)%nat then r :: l
      else r' :: insert_recent r l'
  end.

Definition order_by_timestamp_desc (rows : list turn) : list turn :=
  fold_right insert_recent [] rows.

(** [LIMIT ?]: SQLite reads a negative bound as no bound. *)
Definition sql_limit {A} (limit : Z) (rows : list A) : list A :=
  if (limit <? 0)%Z then rows else firstn (Z.to_nat limit) rows.

Definition to_item (row : turn) : history_item :=
  {| id := turn_id row; item_timestamp := timestamp row;
     item_user_msg := user_msg row; item_bot_res := bot_res row |}.

(** [get_chat_history(limit)]; [query_error] is the exception, if any,
    that the connection or the [SELECT] raises. *)
Definition get_chat_history (query_error : option string) (limit : Z)
    (w : World) : list history_item :=
  match query_error with
  | Some _ => []
  | None =>
      map to_item (rev (sql_limit limit (order_by_timestamp_desc (turns w))))
  end.

(** The answer of [GET /stats]. *)
Record stats := {
  facts : nat;
  philosophy : nat;
  voice : nat;
  conversations : nat;
  text_conversations : nat;
  image_conversations : nat
}.

(** [SELECT COUNT( * ) FROM turns WHERE type = ty] *)
Definition count_type (ty : string) (rows : list turn) : nat :=
  length (List.filter (fun r => String.eqb (type_ r) ty) rows).

(** The first [try] block of [get_stats] with its handler. *)
Definition knowledge_counts (env : Env) : M (nat * nat) :=
  try_except
    (let! facts_ids := Store.collection_get env "fact" in
     let! phi_ids := Store.collection_get env "philosophy" in
     ret (length facts_ids, length phi_ids))%py
    (fun _ => ret (0%nat, 0%nat)).

(** [get_stats()]; [query_error] as in [get_chat_history]. *)
Definition get_stats (env : Env) (query_error : option string) (w : World)
    : stats :=
  let '(facts_count, phi_count) :=
    match fst (knowledge_counts env w) with
    | Ok counts => counts
    | Raise _ => (0%nat, 0%nat)
    end in
  let voice_count :=
    if bool_decide (is_Some (files w !! Voice.SPEAKER_WAV)) then 1%nat
    else 0%nat in
  let '(conversation_count, text_count, image_count) :=
    match query_error with
    | Some _ => (0%nat, 0%nat, 0%nat)
    | None => (length (turns w), count_type "text" (turns w),
               count_type "image" (turns w))
    end in
  {| facts := facts_count; philosophy := phi_count; voice := voice_count;
     conversations := conversation_count; text_conversations := text_count;
     image_conversations := image_count |}.

End History.

(** ** What the CSV loop appends for one usable row *)

Module Rows.

Local Open Scope string_scope.

(** The document appended for a row: [f"passage: {text}"]. *)
Definition row_document (row : gmap string string) : string :=
  "passage: " +:+ default EmptyString (Ingest.row_text row).

(** The metadata appended for a row. *)
Definition row_metadata (row : gmap string string) : gmap string string :=
  list_to_map [("source", "upload"); ("type", "fact");
               ("year", default "Unknown" (row !! "year"));
               ("raw_text", default EmptyString (Ingest.row_text row))].

End Rows.

(** ** The rows the chat turns append *)

Module Rowshape.

Local Open Scope string_scope.

(** The row of a text turn appended to a table whose counter is [seq]. *)
Definition is_text_row (message : string) (la lo : float) (seq : nat)
    (row : turn) : Prop :=
  turn_id row = Datatypes.S seq /\ user_msg row = message
  /\ type_ row = "text" /\ lat row = la /\ lon row = lo.

(** The row of an image turn. *)
Definition is_image_row (message bot : string) (seq : nat) (row : turn)
    : Prop :=
  turn_id row = Datatypes.S seq /\ user_msg row = "[Image] " +:+ message
  /\ bot_res row = bot /\ type_ row = "image"
  /\ lat row = 0%float /\ lon row = 0%float.

(** Orders on rows and on history items by timestamp. *)
Definition newer (a b : turn) : Prop := (timestamp b <= timestamp a)%nat.
Definition older (a b : turn) : Prop := (timestamp a <= timestamp b)%nat.
Definition item_older (a b : History.history_item) : Prop :=
  (History.item_timestamp a <= History.item_timestamp b)%nat.

End Rowshape.

(** ** File names of the voice cache *)

Module CacheName.

(** A lower-case hexadecimal digit. *)
Definition is_hex_char (c : ascii) : bool :=
  let n := N_of_ascii c in
  ((48 <=? n) && (n <=? 57) || (97 <=? n) && (n <=? 102))%N.

(** The engine input of a cache miss: the reference sample when the
    file is there. *)
Definition audio_prompt (w : World) : option string :=
  if bool_decide (is_Some (files w !! Voice.SPEAKER_WAV))
  then Some Voice.SPEAKER_WAV else None.

End CacheName.

(** ** Counting stored items by type *)

Module Counting.

(** The number of ids [collection.get(where={"type": ty})] returns. *)
Definition typed_count (ty : string) (c : gmap nat item) : nat :=
  length (filter (fun kv => Store.has_type ty (snd kv) = true)
            (map_to_list c)).

End Counting.

(** ** Timeline of facts *)

Module Timeline.

Local Open Scope string_scope.

(** One element of the answer of [GET /knowledge/facts]. *)
Record timeline_entry := {
  year : string;
  text : string
}.

(** The items [collection.get(where={"type": ty})] returns. *)
Definition typed_items (ty : string) (c : gmap nat item) : list item :=
  map snd (filter (fun kv => Store.has_type ty (snd kv) = true)
             (map_to_list c)).

(** [collection.get(where={"type": ty}, limit=limit)] *)
Definition collection_get_items (env : Env) (ty : string) (limit : nat)
    : M (list item) :=
  (let! _ := guard env StoreGet in
   gets (fun w => firstn limit (typed_items ty (collection w))))%py.

(** [s.replace(old, "")] for a non-empty [old]: the occurrences are
    found from left to right and do not overlap; [skip] counts the
    characters of the current occurrence still to be dropped. *)
Fixpoint remove_all (old : string) (skip : nat) (s : string) : string :=
  match s with
  | EmptyString => EmptyString
  | String c s' =>
      match skip with
      | Datatypes.S skip' => remove_all old skip' s'
      | O =>
          if String.prefix old s
          then remove_all old (String.length old - 1) s'
          else String c (remove_all old 0 s')
      end
  end.

(** The body of the loop over [results['metadatas']].  [re_search] is
    [re.search(r'\b(19|20)\d{2}\b', raw_text)] reduced to the matched
    text, [match.group(0)], if there is a match. *)
Definition entry_of (re_search : string -> option string) (it : item)
    : timeline_entry :=
  let stripped := remove_all "passage: " 0 (document it) in
  let raw_text :=
    match metadata it !! "raw_text" with
    | Some t => if truthy t then t else stripped
    | None => stripped
    end in
  let found := default "Memory" (re_search raw_text) in
  let year :=
    match metadata it !! "year" with
    | Some y =>
        if negb (truthy y) || String.eqb y "Unknown" then found else y
    | None => found
    end in
  {| year := year; text := raw_text |}.

(** Stable insertion sort for [timeline_data.sort(key=...)] on the year
    as text. *)
Fixpoint insert_by_year (e : timeline_entry) (l : list timeline_entry)
    : list timeline_entry :=
  match l with
  | [] => [e]
  | e' :: l' =>
      if String.leb (year e) (year e') then e :: l
      else e' :: insert_by_year e l'
  end.

Definition sort_by_year (l : list timeline_entry) : list timeline_entry :=
  fold_right insert_by_year [] l.

Definition get_timeline_data (env : Env)
    (re_search : string -> option string) : M (list timeline_entry) :=
  try_except
    (let! items := collection_get_items env "fact" 100 in
     let timeline_data :=
       match items with
       | [] => []
       | _ :: _ => map (entry_of re_search) items
       end in
     ret (sort_by_year timeline_data))%py
    (fun _ => ret []).

(** The order of the answer. *)
Definition year_le (a b : timeline_entry) : Prop :=
  String.leb (year a) (year b) = true.

(** What the timeline shows for a row of an ingested CSV: its text, and
    its year unless that is missing, empty or [Unknown], in which case
    the year found in the text or [Memory]. *)
Definition row_entry (re_search : string -> option string)
    (row : gmap string string) : timeline_entry :=
  let t := default EmptyString (Ingest.row_text row) in
  let found := default "Memory" (re_search t) in
  {| year := match row !! "year" with
             | Some y =>
                 if truthy y && negb (String.eqb y "Unknown") then y
                 else found
             | None => found
             end;
     text := t |}.

End Timeline.

(** ** Further concrete inputs *)

Module MoreExamples.

Local Open Scope string_scope.

Definition form_a : Admin.persona_form :=
  {| Admin.deceased_name := "Ada"; Admin.user_name := "Sam";
     Admin.user_nickname := "Sammy"; Admin.relationship := "Aunt";
     Admin.date_of_death := "2021"; Admin.dimension := "memory";
     Admin.personality_traits := "Dry, precise.";
     Admin.philosophy := "Measure twice."; Admin.achievements := EmptyString |}.

(** A persona file that does not parse. *)
Definition world_broken : World :=
  {| config := Malformed "Expecting value: line 1 column 1 (char 0)";
     config_writes := 0; collection := ∅; turns := []; turn_seq := 0;
     files := ∅; clock := 0; wire := []; engine_calls := 0 |}.

(** The store accepts lookups and deletions but refuses insertions. *)
Definition env_add_down : Env :=
  {| fault := fun o => match o with
                       | StoreAdd => Some "disk full"
                       | _ => None
                       end;
     similarity := similarity Examples.env_ok;
     ollama_stream := ollama_stream Examples.env_ok;
     ollama_generate := ollama_generate Examples.env_ok;
     voice_engine := voice_engine Examples.env_ok;
     split_text := split_text Examples.env_ok;
     csv_rows := csv_rows Examples.env_ok;
     fitz_pages := fitz_pages Examples.env_ok;
     read_text := read_text Examples.env_ok |}.

(** The model answers two tokens and then the connection breaks; the
    one-shot generation fails. *)
Definition env_stream_breaks : Env :=
  {| fault := fault Examples.env_ok;
     similarity := similarity Examples.env_ok;
     ollama_stream := fun _ => (["Hel"; "lo"], Some "connection reset");
     ollama_generate := fun _ _ => Raise "model not found";
     voice_engine := voice_engine Examples.env_ok;
     split_text := split_text Examples.env_ok;
     csv_rows := csv_rows Examples.env_ok;
     fitz_pages := fitz_pages Examples.env_ok;
     read_text := read_text Examples.env_ok |}.

(** The turns table cannot be written. *)
Definition env_db_down : Env :=
  {| fault := fun o => match o with
                       | DbInsert => Some "database is locked"
                       | _ => None
                       end;
     similarity := similarity Examples.env_ok;
     ollama_stream := ollama_stream Examples.env_ok;
     ollama_generate := ollama_generate Examples.env_ok;
     voice_engine := voice_engine Examples.env_ok;
     split_text := split_text Examples.env_ok;
     csv_rows := csv_rows Examples.env_ok;
     fitz_pages := fitz_pages Examples.env_ok;
     read_text := read_text Examples.env_ok |}.

(** The vector search is unavailable. *)
Definition env_search_down : Env :=
  {| fault := fun o => match o with
                       | StoreSearch => Some "embedding service unreachable"
                       | _ => None
                       end;
     similarity := similarity Examples.env_ok;
     ollama_stream := ollama_stream Examples.env_ok;
     ollama_generate := ollama_generate Examples.env_ok;
     voice_engine := voice_engine Examples.env_ok;
     split_text := split_text Examples.env_ok;
     csv_rows := csv_rows Examples.env_ok;
     fitz_pages := fitz_pages Examples.env_ok;
     read_text := read_text Examples.env_ok |}.

(** An engine that cannot synthesize. *)
Definition broken_engine : VoiceEngine :=
  {| tensor := list Z;
     tts_generate := fun _ _ => Raise "CUDA out of memory";
     wav_file := fun wav => Ok wav |}.

Definition env_engine_fails : Env :=
  {| fault := fault Examples.env_ok;
     similarity := similarity Examples.env_ok;
     ollama_stream := ollama_stream Examples.env_ok;
     ollama_generate := ollama_generate Examples.env_ok;
     voice_engine := Some broken_engine;
     split_text := split_text Examples.env_ok;
     csv_rows := csv_rows Examples.env_ok;
     fitz_pages := fitz_pages Examples.env_ok;
     read_text := read_text Examples.env_ok |}.

End MoreExamples.

(** * Properties *)

(** ** Strings *)

Section StringFacts.

Lemma encode_decode (bs : list Z) :
  Forall (fun b => 0 <= b < 256) bs -> encode (decode bs) = bs.
Proof.
  unfold encode, decode. intros H.
  rewrite list_ascii_of_string_of_list_ascii, map_map.
  induction H as [|b bs Hb _ IH]; [reflexivity|].
  simpl. rewrite IH. f_equal.
  rewrite N_ascii_embedding; lia.
Qed.

Lemma isspace_cases (c : Z) :
  isspace c = true ->
  In c [0x09; 0x0A; 0x0B; 0x0C; 0x0D; 0x1C; 0x1D; 0x1E; 0x1F; 0x20;
        0x85; 0xA0; 0x1680; 0x2000; 0x2001; 0x2002; 0x2003; 0x2004;
        0x2005; 0x2006; 0x2007; 0x2008; 0x2009; 0x200A; 0x2028; 0x2029;
        0x202F; 0x205F; 0x3000].
Proof.
  unfold isspace. intros H.
  repeat (apply orb_prop in H; destruct H as [H|H]);
    repeat (apply andb_prop in H; destruct H as [H ?]);
    repeat match goal with
           | H : (_ <=? _) = true |- _ => apply Z.leb_le in H
           | H : (_ =? _) = true |- _ => apply Z.eqb_eq in H
           end;
    simpl; lia.
Qed.

Lemma lstrip_space (c : Z) (rest : list Z) :
  isspace c = true ->
  lstrip_bytes (utf8 c ++ rest) = lstrip_bytes rest.
Proof.
  intros H. apply isspace_cases in H. simpl in H.
  repeat (destruct H as [<-|H]; [reflexivity|]). destruct H.
Qed.

Lemma utf8_space_bytes (c : Z) :
  isspace c = true -> Forall (fun b => 0 <= b < 256) (utf8 c).
Proof.
  intros H. apply isspace_cases in H. simpl in H.
  repeat (destruct H as [<-|H];
          [vm_compute; repeat constructor; discriminate|]).
  destruct H.
Qed.

Lemma strip_whitespace_only (s : string) :
  whitespace_only s -> strip s = EmptyString.
Proof.
  intros (cps & Hsp & ->). unfold strip, of_codepoints.
  assert (Hb : Forall (fun b => 0 <= b < 256) (concat (map utf8 cps))
               /\ lstrip_bytes (concat (map utf8 cps)) = []).
  { induction cps as [|c cps IH]; [split; [constructor|reflexivity]|].
    simpl in Hsp. apply andb_prop in Hsp as [Hc Hcs].
    destruct (IH Hcs) as [IH1 IH2]. simpl. split.
    - apply Forall_app. split; [apply utf8_space_bytes; exact Hc|exact IH1].
    - rewrite lstrip_space by exact Hc. exact IH2. }
  destruct Hb as [Hb1 Hb2].
  rewrite encode_decode by exact Hb1. rewrite Hb2. reflexivity.
Qed.

Example strip_inner : strip "  a b  " = "a b".
Proof. vm_compute. reflexivity. Qed.

Example strip_nbsp :
  strip (of_codepoints [0xA0; 0x3000; 0x41; 0x2003]) = "A".
Proof. vm_compute. reflexivity. Qed.

End StringFacts.

(** ** MD5: the test suite of RFC 1321 *)

Section MD5Facts.

Example md5_empty :
  MD5.hexdigest (encode EmptyString) = "d41d8cd98f00b204e9800998ecf8427e".
Proof. vm_compute. reflexivity. Qed.

Example md5_abc :
  MD5.hexdigest (encode "abc") = "900150983cd24fb0d6963f7d28e17f72".
Proof. vm_compute. reflexivity. Qed.

Example md5_message_digest :
  MD5.hexdigest (encode "message digest")
  = "f96b697d7cb7938d525a2f31aaf161d0".
Proof. vm_compute. reflexivity. Qed.

Example md5_digits :
  MD5.hexdigest
    (encode "12345678901234567890123456789012345678901234567890123456789012345678901234567890")
  = "57edf4a22be3c955ac49da2e2107b67a".
Proof. vm_compute. reflexivity. Qed.

Example voice_cache_path_hello :
  Voice.get_voice_cache_path "Hello"
  = "./voice_cache/8b1a9953c4611296a827abf8c47804d7.wav".
Proof. vm_compute. reflexivity. Qed.

End MD5Facts.

(** ** Persona configuration *)

Section PersonaFacts.

Import Persona.

Lemma union_insert_present (d m : gmap string string) (k v : string) :
  is_Some (d !! k) -> d ∪ <[k := v]> m = d ∪ m.
Proof.
  intros [x Hx]. apply map_eq. intros i.
  rewrite !lookup_union. destruct (decide (k = i)) as [->|Hne].
  - rewrite Hx, lookup_insert_eq. destruct (m !! i); reflexivity.
  - rewrite lookup_insert_ne by exact Hne. reflexivity.
Qed.

(** The migration loop computes the left-biased union with the defaults
    and raises the flag exactly when some default key was missing. *)
Lemma migrate_fold (l : list (string * string)) (d : gmap string string)
    (ns : bool) :
  fold_left migrate_key l (d, ns)
  = (d ∪ list_to_map l,
     ns || existsb (fun kv => bool_decide (d !! fst kv = None)) l).
Proof.
  revert d ns. induction l as [|[k v] l IH]; intros d ns.
  - simpl. rewrite orb_false_r, (right_id_L ∅ (∪)). reflexivity.
  - simpl. destruct (d !! k) as [x|] eqn:Hk.
    + rewrite IH. rewrite union_insert_present by (rewrite Hk; eauto).
      rewrite bool_decide_eq_false_2 by discriminate. reflexivity.
    + rewrite IH. rewrite bool_decide_eq_true_2 by reflexivity.
      rewrite <- insert_union_l, insert_union_r by exact Hk.
      rewrite !orb_true_r. reflexivity.
Qed.

Lemma load_object (w : World) (d : gmap string string) :
  config w = Object d ->
  load_persona_config w
  = (Ok (d ∪ list_to_map defaults),
     if missing_some d
     then set_config (Object (d ∪ list_to_map defaults)) w else w).
Proof.
  intros Hc. unfold load_persona_config, bindM, gets, ret.
  rewrite Hc. cbv beta iota. rewrite Hc, migrate_fold.
  simpl orb. fold (missing_some d).
  destruct (missing_some d); reflexivity.
Qed.

Lemma missing_some_true (d : gmap string string) :
  missing_some d = true <-> exists k, In k schema_keys /\ d !! k = None.
Proof.
  unfold missing_some, schema_keys. rewrite existsb_exists. split.
  - intros ([k v] & Hin & Hd). apply bool_decide_eq_true_1 in Hd.
    exists k. split; [|exact Hd]. apply in_map_iff. exists (k, v). auto.
  - intros (k & Hin & Hd). apply in_map_iff in Hin as ([k' v] & <- & Hin).
    exists (k', v). split; [exact Hin|]. apply bool_decide_eq_true_2, Hd.
Qed.

Lemma backfilled_complete (d : gmap string string) :
  Forall (fun k => is_Some ((d ∪ list_to_map defaults) !! k)) schema_keys.
Proof.
  apply Forall_forall. intros k Hk. apply lookup_union_is_Some. right.
  destruct (list_to_map defaults !! k) as [v|] eqn:E; [eauto|].
  apply (not_elem_of_list_to_map (M := gmap string)) in E.
  exfalso. apply E. exact Hk.
Qed.

Lemma backfilled_stable (d : gmap string string) :
  missing_some (d ∪ list_to_map defaults) = false.
Proof.
  destruct (missing_some _) eqn:E; [|reflexivity].
  apply missing_some_true in E as (k & Hin & Hk).
  pose proof (backfilled_complete d) as Hall.
  rewrite Forall_forall in Hall. apply list_elem_of_In, Hall in Hin.
  rewrite Hk in Hin. destruct Hin as [? [=]].
Qed.

Lemma backfilled_idem (d : gmap string string) :
  (d ∪ list_to_map defaults) ∪ list_to_map defaults = d ∪ list_to_map defaults.
Proof.
  rewrite <- (assoc_L (∪)), (idemp_L (∪)). reflexivity.
Qed.

Lemma load_absent (w : World) :
  config w = Absent ->
  load_persona_config w
  = (Ok (list_to_map default_persona ∪ list_to_map defaults),
     set_config (Object (list_to_map default_persona)) w).
Proof.
  intros Hc. unfold load_persona_config, bindM, gets, ret.
  rewrite Hc. cbv beta iota.
  unfold save_persona_config, modify. cbv beta iota.
  change (config (set_config ?c w)) with c. cbv beta iota.
  rewrite migrate_fold. simpl orb.
  change (existsb _ defaults) with (missing_some (list_to_map default_persona)).
  replace (missing_some (list_to_map default_persona)) with false
    by (vm_compute; reflexivity).
  reflexivity.
Qed.

Lemma load_malformed (w : World) (e : string) :
  config w = Malformed e -> load_persona_config w = (Raise e, w).
Proof.
  intros Hc. unfold load_persona_config, bindM, gets, ret.
  rewrite Hc. cbv beta iota. rewrite Hc. reflexivity.
Qed.

(** Every load that returns gives a mapping with the whole schema. *)
Lemma load_complete (w w' : World) (p : gmap string string) :
  load_persona_config w = (Ok p, w') ->
  Forall (fun k => is_Some (p !! k)) schema_keys.
Proof.
  destruct (config w) as [|e|d] eqn:Hc.
  - rewrite load_absent by exact Hc. intros [= <- _]. apply backfilled_complete.
  - rewrite (load_malformed _ e) by exact Hc. discriminate.
  - rewrite (load_object _ d) by exact Hc. intros [= <- _].
    apply backfilled_complete.
Qed.

(** C8. A load of a persona file that lacks some recognized keys returns
    the file's mapping completed with the default of every missing key,
    after writing that mapping to the file; every key the file had keeps
    its value.  A second load returns the identical mapping and leaves the
    world, write count included, as it was.  After any load that returns,
    all recognized keys are present. *)
Theorem load_persona_config_migrates (w : World) (d : gmap string string) :
  config w = Object d ->
  (exists k, In k schema_keys /\ d !! k = None) ->
  let d' := d ∪ list_to_map defaults in
  let w' := set_config (Object d') w in
  load_persona_config w = (Ok d', w')
  /\ (forall k, d' !! k = match d !! k with
                         | Some v => Some v
                         | None => (list_to_map defaults : gmap string string) !! k
                         end)
  /\ config w' = Object d'
  /\ config_writes w' = Datatypes.S (config_writes w)
  /\ load_persona_config w' = (Ok d', w')
  /\ (forall w0 p w1, load_persona_config w0 = (Ok p, w1) ->
       Forall (fun k => is_Some (p !! k)) schema_keys).
Proof.
  intros Hc Hmiss d' w'. subst w' d'. apply missing_some_true in Hmiss.
  repeat split.
  - rewrite (load_object w d Hc), Hmiss. reflexivity.
  - intros k. rewrite lookup_union.
    destruct (d !! k), (list_to_map defaults !! k); reflexivity.
  - erewrite load_object by reflexivity.
    rewrite backfilled_stable, backfilled_idem. reflexivity.
  - intros w0 p w1. apply load_complete.
Qed.

Lemma load_persona_config_migrates_witness :
  load_persona_config Examples.old_world
  = (Ok (Examples.old_persona ∪ list_to_map defaults),
     set_config (Object (Examples.old_persona ∪ list_to_map defaults))
       Examples.old_world).
Proof.
  refine (proj1 (load_persona_config_migrates
                   Examples.old_world Examples.old_persona _ _)).
  - reflexivity.
  - exists "user_name"%string. split; [simpl; tauto | vm_compute; reflexivity].
Defined.

End PersonaFacts.

(** ** Evals export *)

Section EvalsFacts.

Import Persona Evals.
Local Open Scope string_scope.








End EvalsFacts.

(** ** Voice cache *)

Section VoiceFacts.

Import Voice.
Local Open Scope string_scope.

Lemma whitespace_only_blank (text : string) :
  whitespace_only text -> blank text = true.
Proof.
  intros H. unfold blank. rewrite (strip_whitespace_only text H).
  apply orb_true_r.
Qed.

(** A hit: with an engine loaded and text that is not blank, the file at
    the cache path is the answer and the world is left as it is. *)
Lemma generate_voice_hit (env : Env) (text : string) (w : World)
    (body : list Z) :
  is_Some (voice_engine env) ->
  blank text = false ->
  files w !! get_voice_cache_path text = Some body ->
  generate_voice env text w = (Http200 body, w).
Proof.
  intros [eng He] Hb Hf. unfold generate_voice. rewrite He.
  rewrite Hb, Hf. reflexivity.
Qed.

(** What a successful call establishes. *)
Lemma generate_voice_ok (env : Env) (text : string) (w w1 : World)
    (body : list Z) :
  generate_voice env text w = (Http200 body, w1) ->
  is_Some (voice_engine env) /\ blank text = false
  /\ files w1 !! get_voice_cache_path text = Some body.
Proof.
  unfold generate_voice. destruct (voice_engine env) as [eng|]; [|discriminate].
  destruct (blank text); [discriminate|].
  destruct (files w !! get_voice_cache_path text) as [bytes|] eqn:Hf.
  - intros [= <- <-]. eauto.
  - unfold synthesize, bindM, Chat.os_path_exists, gets, modify, lift, ret.
    destruct (tts_generate eng text _) as [wav|e]; [|discriminate].
    destruct (wav_file eng wav) as [bytes|e]; [|discriminate].
    intros [= <- <-]. repeat split; [eauto|].
    apply lookup_insert_eq.
Qed.

(** C3. The cache key is computed from the text and nothing else, so the
    same text gives the same key.  After a call that returned audio, the
    file at that key holds those bytes; a second call with the same text
    returns exactly them and leaves the world, the count of engine
    invocations included, untouched; and so does any later call, in any
    environment with an engine loaded, as long as the file is there. *)
Theorem generate_voice_second_call (env : Env) (text : string) (w w1 : World)
    (body : list Z) :
  generate_voice env text w = (Http200 body, w1) ->
  (forall t, t = text -> get_voice_cache_path t = get_voice_cache_path text)
  /\ files w1 !! get_voice_cache_path text = Some body
  /\ generate_voice env text w1 = (Http200 body, w1)
  /\ engine_calls (snd (generate_voice env text w1)) = engine_calls w1
  /\ (forall env' w', is_Some (voice_engine env') ->
       files w' !! get_voice_cache_path text = Some body ->
       generate_voice env' text w' = (Http200 body, w')).
Proof.
  intros H. apply generate_voice_ok in H as (He & Hb & Hf).
  split; [intros t ->; reflexivity|].
  split; [exact Hf|].
  rewrite (generate_voice_hit env text w1 body He Hb Hf).
  repeat split. intros env' w' He' Hf'.
  apply generate_voice_hit; assumption.
Qed.

Lemma generate_voice_second_call_witness :
  let w1 := snd (generate_voice Examples.env_ok "Hello" Examples.world0) in
  engine_calls w1 = 1%nat
  /\ generate_voice Examples.env_ok "Hello" w1 = (Http200 (encode "Hello"), w1)
  /\ engine_calls (snd (generate_voice Examples.env_ok "Hello" w1)) = 1%nat.
Proof.
  intros w1.
  destruct (generate_voice_second_call Examples.env_ok "Hello"
              Examples.world0 w1 (encode "Hello"))
    as (_ & _ & H2 & H3 & _).
  - vm_compute. reflexivity.
  - split; [vm_compute; reflexivity|]. split; [exact H2|].
    rewrite H3. vm_compute. reflexivity.
Defined.

(** C6, as the endpoint has it.  With an engine loaded, empty or
    whitespace-only text is answered with 400; without one, every call,
    whatever its text, is answered with 503.  In both cases the world is
    unchanged: the engine is not invoked and nothing is written. *)
Theorem generate_voice_rejects_blank (env : Env) (text : string) (w : World) :
  whitespace_only text ->
  (is_Some (voice_engine env) ->
   generate_voice env text w
   = (HttpError 400 "Text parameter cannot be empty.", w))
  /\ (voice_engine env = None ->
      forall t, generate_voice env t w
                = (HttpError 503 "Voice engine not loaded.", w)).
Proof.
  intros Hws. split.
  - intros [eng He]. unfold generate_voice.
    rewrite He, (whitespace_only_blank text Hws). reflexivity.
  - intros He t. unfold generate_voice. rewrite He. reflexivity.
Qed.

Lemma generate_voice_rejects_blank_witness :
  generate_voice Examples.env_ok "   " Examples.world0
  = (HttpError 400 "Text parameter cannot be empty.", Examples.world0)
  /\ generate_voice Examples.env_no_voice "Hello" Examples.world0
     = (HttpError 503 "Voice engine not loaded.", Examples.world0).
Proof.
  split.
  - apply (generate_voice_rejects_blank Examples.env_ok "   " Examples.world0).
    + exists [0x20; 0x20; 0x20]. split; reflexivity.
    + simpl. eauto.
  - apply (generate_voice_rejects_blank Examples.env_no_voice "   "
             Examples.world0).
    + exists [0x20; 0x20; 0x20]. split; reflexivity.
    + reflexivity.
Defined.

(** C6 as stated fails when no engine is loaded: the empty text is then
    answered with 503, not with 400. *)
Lemma generate_voice_empty_unloaded :
  fst (generate_voice Examples.env_no_voice EmptyString Examples.world0)
  = HttpError 503 "Voice engine not loaded."
  /\ ~ (exists detail,
         fst (generate_voice Examples.env_no_voice EmptyString Examples.world0)
         = HttpError 400 detail).
Proof.
  split; [reflexivity|]. intros [detail H]. discriminate H.
Qed.

End VoiceFacts.

(** ** Knowledge store *)

Section StoreFacts.

Import Store.

Lemma set_collection_id (w : World) : set_collection (collection w) w = w.
Proof. destruct w; reflexivity. Qed.

Lemma lookup_foldr_delete_Some (c : gmap nat item) (ids : list nat)
    (i : nat) (x : item) :
  foldr delete c ids !! i = Some x <-> ~ In i ids /\ c !! i = Some x.
Proof.
  induction ids as [|j ids IH]; simpl.
  - tauto.
  - rewrite lookup_delete_Some, IH. intuition congruence.
Qed.

(** The ids returned for a type are those of the items carrying it. *)
Lemma typed_ids (ty : string) (c : gmap nat item) (i : nat) :
  In i (map fst (filter (fun kv => has_type ty (snd kv) = true)
                   (map_to_list c)))
  <-> exists it, c !! i = Some it /\ has_type ty it = true.
Proof.
  rewrite in_map_iff. split.
  - intros ([j it] & <- & Hin). apply list_elem_of_In in Hin.
    apply list_elem_of_filter in Hin as [Hty Hin].
    apply elem_of_map_to_list in Hin. exists it. auto.
  - intros (it & Hc & Hty). exists (i, it). split; [reflexivity|].
    apply list_elem_of_In, list_elem_of_filter. split; [exact Hty|].
    apply elem_of_map_to_list, Hc.
Qed.

(** Deleting those ids leaves exactly the items of the other types. *)
Lemma delete_typed (ty : string) (c : gmap nat item) :
  foldr delete c
    (map fst (filter (fun kv => has_type ty (snd kv) = true) (map_to_list c)))
  = filter (fun kv => has_type ty (snd kv) = false) c.
Proof.
  apply map_eq. intros i. apply option_eq. intros x.
  rewrite lookup_foldr_delete_Some, typed_ids, map_lookup_filter_Some.
  simpl. split.
  - intros [Hno Hc]. split; [exact Hc|].
    destruct (has_type ty x) eqn:E; [|reflexivity].
    exfalso. apply Hno. eauto.
  - intros [Hc Hty]. split; [|exact Hc].
    intros (it & Hc' & Hty'). congruence.
Qed.

Lemma add_all_keeps (texts : list string) (metas : list (gmap string string))
    (c : gmap nat item) (i : nat) (it : item) :
  c !! i = Some it -> add_all texts metas c !! i = Some it.
Proof.
  revert metas c. induction texts as [|t texts IH]; intros metas c Hc.
  - exact Hc.
  - destruct metas as [|m metas]; [exact Hc|]. simpl. apply IH.
    rewrite lookup_insert_ne; [exact Hc|].
    intros Heq. pose proof (is_fresh (dom c)) as Hf.
    rewrite Heq in Hf. apply Hf, elem_of_dom. eauto.
Qed.

Lemma add_all_origin (texts : list string) (metas : list (gmap string string))
    (c : gmap nat item) (i : nat) (it : item) :
  add_all texts metas c !! i = Some it ->
  c !! i = Some it \/ In (document it, metadata it) (combine texts metas).
Proof.
  revert metas c. induction texts as [|t texts IH]; intros metas c H.
  - left. exact H.
  - destruct metas as [|m metas]; [left; exact H|]. simpl in H.
    apply IH in H as [H|H]; [|right; right; exact H].
    destruct (decide (fresh (dom c) = i)) as [<-|Hne].
    + rewrite lookup_insert_eq in H. injection H as <-. right. left. reflexivity.
    + rewrite lookup_insert_ne in H by exact Hne. left. exact H.
Qed.

Lemma add_all_size (texts : list string) (metas : list (gmap string string))
    (c : gmap nat item) :
  length texts = length metas ->
  size (add_all texts metas c) = (size c + length texts)%nat.
Proof.
  revert metas c. induction texts as [|t texts IH]; intros metas c Hlen.
  - simpl. lia.
  - destruct metas as [|m metas]; [discriminate|]. simpl.
    rewrite IH by (simpl in Hlen; lia).
    rewrite map_size_insert_None; [lia|].
    apply not_elem_of_dom, is_fresh.
Qed.

(** Search results are documents of stored items. *)
Lemma insert_desc_In {A} (score : A -> Z) (x y : A) (l : list A) :
  In y (insert_desc score x l) <-> y = x \/ In y l.
Proof.
  induction l as [|z l IH]; simpl; [intuition|].
  destruct (score x <? score z); simpl; [|intuition].
  rewrite IH. intuition.
Qed.

Lemma rank_In {A} (score : A -> Z) (y : A) (l : list A) :
  In y (rank score l) <-> In y l.
Proof.
  induction l as [|x l IH]; simpl; [tauto|].
  rewrite insert_desc_In, IH. intuition.
Qed.

Lemma similarity_search_stored (env : Env) (query : string) (k : nat)
    (w w' : World) (results : list string) (doc : string) :
  similarity_search env query k w = (Ok results, w') ->
  In doc results ->
  exists id it, collection w !! id = Some it /\ document it = doc.
Proof.
  unfold similarity_search, bindM, guard, gets, raise, ret.
  destruct (fault env StoreSearch); [discriminate|].
  intros [= <- _] Hin. apply list_elem_of_In, elem_of_take in Hin.
  destruct Hin as (n & Hn & _). apply list_elem_of_lookup_2 in Hn.
  apply list_elem_of_In, rank_In, in_map_iff in Hn.
  destruct Hn as ([id it] & <- & Hin).
  exists id, it. split; [|reflexivity].
  apply elem_of_map_to_list, list_elem_of_In, Hin.
Qed.

End StoreFacts.

(** ** Ingestion *)

Section IngestFacts.

Import Store Ingest.
Local Open Scope string_scope.

(** When the lookup raises, the exception is swallowed and nothing is
    deleted. *)
Lemma clear_partition_get_raises (env : Env) (ty e : string) (w : World) :
  fault env StoreGet = Some e ->
  clear_partition env ty w = (Ok tt, w).
Proof.
  intros Hg.
  unfold clear_partition, try_except, bindM, collection_get, guard, raise, ret.
  rewrite Hg. reflexivity.
Qed.

Lemma replaces_intro (ty : string) (texts : list string)
    (metas : list (gmap string string)) (w : World) :
  length texts = length metas ->
  Forall (fun m : gmap string string => m !! "type" = Some ty) metas ->
  replaces ty texts metas w
    (set_collection
       (add_all texts metas
          (filter (fun kv => has_type ty (snd kv) = false) (collection w))) w).
Proof.
  intros Hlen Hty. unfold replaces. cbv zeta.
  set (kept := filter _ (collection w)).
  change (collection (set_collection ?c w)) with c.
  split; [reflexivity|].
  assert (Hkept : forall id it, kept !! id = Some it <->
                    collection w !! id = Some it /\ has_type ty it = false).
  { intros id it. unfold kept. rewrite map_lookup_filter_Some. reflexivity. }
  assert (Hnew : forall t m, In (t, m) (combine texts metas) ->
                   has_type ty (Item t m) = true).
  { intros t m Hin. apply in_combine_r in Hin.
    rewrite Forall_forall in Hty. apply list_elem_of_In, Hty in Hin.
    unfold has_type. simpl. apply bool_decide_eq_true_2, Hin. }
  split; [intros id it H; apply Hkept in H; tauto|].
  split.
  { intros id it Hno. split.
    - intros H. apply add_all_origin in H as [H|H].
      + apply Hkept in H. tauto.
      + destruct it as [t m]. simpl in H. apply Hnew in H. congruence.
    - intros H. apply add_all_keeps, Hkept. auto. }
  split.
  { intros id it H Hyes. apply add_all_origin in H as [H|H]; [|exact H].
    apply Hkept in H. destruct H as [_ H]. congruence. }
  apply add_all_size, Hlen.
Qed.

(** The loop over the rows keeps the two lists in step and tags every
    item as a fact. *)
Lemma collect_rows_shape (rows : list (gmap string string))
    (docs : list string) (metas : list (gmap string string)) :
  length docs = length metas ->
  Forall (fun m : gmap string string => m !! "type" = Some "fact") metas ->
  let '(docs', metas') := fold_left collect_row rows (docs, metas) in
  length docs' = length metas'
  /\ Forall (fun m : gmap string string => m !! "type" = Some "fact") metas'.
Proof.
  revert docs metas. induction rows as [|row rows IH]; intros docs metas Hl Hf.
  - simpl. auto.
  - simpl. destruct (row_text row) as [text|]; [|apply IH; assumption].
    destruct (truthy text); [|apply IH; assumption].
    apply IH.
    + rewrite !length_app. simpl. lia.
    + apply Forall_app. split; [exact Hf|]. constructor; [|constructor].
      reflexivity.
Qed.

Lemma collect_rows_unusable (rows : list (gmap string string))
    (acc : list string * list (gmap string string)) :
  Forall (fun row => usable row = false) rows ->
  fold_left collect_row rows acc = acc.
Proof.
  intros H. revert acc. induction H as [|row rows Hrow _ IH]; intros acc.
  - reflexivity.
  - simpl. rewrite <- (IH acc) at 2. f_equal.
    unfold collect_row, usable in *. destruct acc as [docs metas].
    destruct (row_text row) as [text|]; [|reflexivity].
    rewrite Hrow. reflexivity.
Qed.

Lemma replaces_retrieval (env : Env) (ty : string) (texts : list string)
    (metas : list (gmap string string)) (w w' : World) :
  replaces ty texts metas w w' -> retrieves_only env ty texts w w'.
Proof.
  intros (_ & _ & Hother & Hnew & _) query k results w'' doc Hs Hin.
  destruct (similarity_search_stored _ _ _ _ _ _ _ Hs Hin)
    as (id & it & Hc & <-).
  destruct (has_type ty it) eqn:E.
  - left. apply (in_combine_l _ _ _ _ (Hnew id it Hc E)).
  - right. exists id, it. split; [apply (Hother id it E), Hc|]. auto.
Qed.

(** The facts ingestion then inserts the rows next to the old items. *)
Lemma process_csv_lookup_raises (env : Env) (path e : string) (w : World)
    (rows : list (gmap string string)) (docs : list string)
    (metas : list (gmap string string)) :
  fault env StoreGet = Some e ->
  fault env StoreAdd = None ->
  csv_rows env path = Ok rows ->
  fold_left collect_row rows ([], []) = (docs, metas) ->
  docs <> [] ->
  process_csv_ingestion env path w
  = (Ok (Z.of_nat (length docs)),
     set_collection (add_all docs metas (collection w)) w).
Proof.
  intros Hg Ha Hrows Hfold Hne.
  unfold process_csv_ingestion, try_except, bindM at 1, lift.
  rewrite Hrows, Hfold. destruct docs as [|d docs]; [congruence|].
  unfold bindM. rewrite (clear_partition_get_raises env "fact" e w Hg).
  unfold add_texts, bindM, guard, ret, modify. rewrite Ha. reflexivity.
Qed.

(** From here on the store answers every call of the ingestion. *)
Section StoreAnswers.

Variable env : Env.
Hypothesis get_ok : fault env StoreGet = None.
Hypothesis delete_ok : fault env StoreDelete = None.
Hypothesis add_ok : fault env StoreAdd = None.

(** The inner block empties the partition. *)
Lemma clear_partition_ok (ty : string) (w : World) :
  clear_partition env ty w
  = (Ok tt,
     set_collection
       (filter (fun kv => has_type ty (snd kv) = false) (collection w)) w).
Proof.
  rewrite <- delete_typed.
  unfold clear_partition, try_except, bindM, collection_get,
    collection_delete, bindM, guard, gets, modify, ret.
  rewrite get_ok. cbv beta iota.
  destruct (map fst _) as [|i ids] eqn:E.
  - simpl. rewrite set_collection_id. reflexivity.
  - rewrite delete_ok. reflexivity.
Qed.

Lemma process_csv_replaces (path : string) (w : World)
    (rows : list (gmap string string)) (docs : list string)
    (metas : list (gmap string string)) :
  csv_rows env path = Ok rows ->
  fold_left collect_row rows ([], []) = (docs, metas) ->
  docs <> [] ->
  exists w',
    process_csv_ingestion env path w = (Ok (Z.of_nat (length docs)), w')
    /\ replaces "fact" docs metas w w'.
Proof.
  intros Hrows Hfold Hne.
  pose proof (collect_rows_shape rows [] [] eq_refl (Forall_nil_2 _)) as Hsh.
  rewrite Hfold in Hsh. destruct Hsh as [Hlen Hty].
  eexists. split; [|apply (replaces_intro "fact" docs metas w Hlen Hty)].
  unfold process_csv_ingestion, try_except, bindM at 1, lift.
  rewrite Hrows, Hfold. destruct docs as [|d docs]; [congruence|].
  unfold bindM. rewrite (clear_partition_ok "fact" w).
  unfold add_texts, bindM, guard, ret, modify. rewrite add_ok. reflexivity.
Qed.

Lemma process_philosophy_replaces (path : string) (is_pdf : bool)
    (w : World) (text : string) :
  extract_text env path is_pdf = Ok text ->
  truthy (strip text) = true ->
  split_text env text <> [] ->
  exists w',
    process_philosophy_ingestion env path is_pdf w
    = (Ok (Z.of_nat (length (split_text env text))), w')
    /\ replaces "philosophy"
         (map (fun c => "passage: " +:+ c) (split_text env text))
         (map (fun _ => list_to_map [("source", "upload");
                                     ("type", "philosophy")])
            (split_text env text)) w w'.
Proof.
  intros Hx Hs Hne.
  eexists. split; [|apply replaces_intro].
  - unfold process_philosophy_ingestion, try_except, bindM at 1, lift.
    rewrite Hx, Hs. change (negb true) with false. cbv iota.
    destruct (split_text env text) as [|c chunks] eqn:E; [congruence|].
    unfold bindM. rewrite (clear_partition_ok "philosophy" w).
    unfold add_texts, bindM, guard, ret, modify. rewrite add_ok. reflexivity.
  - rewrite !length_map. reflexivity.
  - apply Forall_forall. intros m Hm.
    apply list_elem_of_In, in_map_iff in Hm as (c & <- & _). reflexivity.
Qed.

(** C2, for a store that answers.  When the lookup, the deletion and the
    insertion succeed, an ingestion with at least one item to insert
    returns the number of items inserted and leaves the collection with
    its partition replaced: every earlier item of the ingested type was
    deleted before the insertion, the items of other types are the same
    before and after, the items of the ingested type are the inserted
    ones, and a later search brings back no earlier item of that type. *)
Theorem ingestion_replaces_partition (w : World) :
  (forall path rows docs metas,
     csv_rows env path = Ok rows ->
     fold_left collect_row rows ([], []) = (docs, metas) ->
     docs <> [] ->
     exists w',
       process_csv_ingestion env path w = (Ok (Z.of_nat (length docs)), w')
       /\ replaces "fact" docs metas w w'
       /\ retrieves_only env "fact" docs w w')
  /\ (forall path is_pdf text,
        extract_text env path is_pdf = Ok text ->
        truthy (strip text) = true ->
        split_text env text <> [] ->
        let docs := map (fun c => "passage: " +:+ c) (split_text env text) in
        let metas := map (fun _ => list_to_map [("source", "upload");
                                                ("type", "philosophy")])
                       (split_text env text) in
        exists w',
          process_philosophy_ingestion env path is_pdf w
          = (Ok (Z.of_nat (length docs)), w')
          /\ replaces "philosophy" docs metas w w'
          /\ retrieves_only env "philosophy" docs w w').
Proof.
  split.
  - intros path rows docs metas Hrows Hfold Hne.
    destruct (process_csv_replaces path w rows docs metas Hrows Hfold Hne)
      as (w' & Hrun & Hrep).
    exists w'. split; [exact Hrun|]. split; [exact Hrep|].
    eapply replaces_retrieval, Hrep.
  - intros path is_pdf text Hx Hs Hne docs metas.
    destruct (process_philosophy_replaces path is_pdf w text Hx Hs Hne)
      as (w' & Hrun & Hrep).
    exists w'. unfold docs at 1. rewrite length_map.
    split; [exact Hrun|]. split; [exact Hrep|].
    eapply replaces_retrieval, Hrep.
Qed.

End StoreAnswers.

(** The running example: the three rows give count 2, the earlier fact C
    is gone from the collection and from every search, and the
    philosophy chunk is still stored. *)
Lemma ingestion_replaces_partition_witness :
  exists w',
    process_csv_ingestion Examples.env_ok "facts.csv" Examples.world_c
    = (Ok 2, w')
    /\ (forall id, collection w' !! id <> Some Examples.fact_c)
    /\ collection w' !! 1%nat = Some Examples.chunk_p
    /\ forall query k results w'',
         similarity_search Examples.env_ok query k w' = (Ok results, w'') ->
         ~ In "passage: C" results.
Proof.
  destruct (ingestion_replaces_partition Examples.env_ok
              eq_refl eq_refl eq_refl Examples.world_c) as [Hcsv _].
  destruct (Hcsv "facts.csv" Examples.facts_rows
              ["passage: A"; "passage: B"]
              [list_to_map [("source", "upload"); ("type", "fact");
                            ("year", "1990"); ("raw_text", "A")];
               list_to_map [("source", "upload"); ("type", "fact");
                            ("year", "Unknown"); ("raw_text", "B")]])
    as (w' & Hrun & Hrep & Hret).
  - reflexivity.
  - vm_compute. reflexivity.
  - discriminate.
  - exists w'. split; [exact Hrun|].
    destruct Hrep as (_ & _ & Hother & Hnew & _).
    split; [|split].
    + intros id Hc. apply Hnew in Hc; [|vm_compute; reflexivity].
      simpl in Hc. destruct Hc as [Hc|[Hc|[]]]; discriminate Hc.
    + apply Hother; [vm_compute; reflexivity|]. vm_compute. reflexivity.
    + intros query k results w'' Hs Hin.
      destruct (Hret query k results w'' _ Hs Hin)
        as [[H|[H|[]]]|(id & it & Hc & Hty & Hdoc)]; try discriminate H.
      unfold Examples.world_c in Hc. simpl in Hc.
      apply lookup_insert_Some in Hc as [[_ <-]|[_ Hc]];
        [vm_compute in Hty; discriminate|].
      apply lookup_insert_Some in Hc as [[_ <-]|[_ Hc]];
        [vm_compute in Hdoc; discriminate|].
      rewrite lookup_empty in Hc. discriminate.
Defined.

(** C2 as stated fails when the store's lookup raises: the exception is
    swallowed, the three rows are ingested with count 2, and the earlier
    fact C is still stored and still retrieved. *)
Lemma csv_ingestion_lookup_raises_keeps_facts :
  let run := process_csv_ingestion Examples.env_get_down "facts.csv"
               Examples.world_c in
  fst run = Ok 2
  /\ collection Examples.world_c !! 0%nat = Some Examples.fact_c
  /\ has_type "fact" Examples.fact_c = true
  /\ collection (snd run) !! 0%nat = Some Examples.fact_c
  /\ fst (similarity_search Examples.env_get_down "C" 3 (snd run))
     = Ok ["passage: C"; "passage: A"; "passage: B"].
Proof. vm_compute. repeat split. Qed.

(** C10. When no row of the CSV supplies usable text the ingestion returns
    0 and the world is exactly as before: nothing is deleted from either
    partition and nothing is inserted. *)
Theorem csv_ingestion_nothing_usable (env : Env) (path : string) (w : World)
    (rows : list (gmap string string)) :
  csv_rows env path = Ok rows ->
  Forall (fun row => usable row = false) rows ->
  process_csv_ingestion env path w = (Ok 0, w)
  /\ forall id, collection (snd (process_csv_ingestion env path w)) !! id
                = collection w !! id.
Proof.
  intros Hrows Hun.
  assert (H : process_csv_ingestion env path w = (Ok 0, w)).
  { unfold process_csv_ingestion, try_except, bindM, lift.
    rewrite Hrows, (collect_rows_unusable rows _ Hun). reflexivity. }
  rewrite H. split; reflexivity.
Qed.

Lemma csv_ingestion_nothing_usable_witness :
  process_csv_ingestion Examples.env_unusable "facts.csv" Examples.world_c
  = (Ok 0, Examples.world_c)
  /\ collection Examples.world_c !! 0%nat = Some Examples.fact_c.
Proof.
  split; [|reflexivity].
  apply (csv_ingestion_nothing_usable Examples.env_unusable "facts.csv"
           Examples.world_c
           [ list_to_map [("other", "x")];
             list_to_map [("text", EmptyString); ("year", "2001")] ]).
  - reflexivity.
  - repeat constructor.
Defined.

(** C7. A document whose extracted text is empty or whitespace-only gets
    the code -2 and leaves the world untouched.  That code differs from
    the 0 returned when the splitter yields no chunk and from the -1
    returned when the extraction raises. *)
Theorem philosophy_ingestion_empty_document (env : Env) (path : string)
    (is_pdf : bool) (w : World) (text : string) :
  extract_text env path is_pdf = Ok text ->
  whitespace_only text ->
  process_philosophy_ingestion env path is_pdf w = (Ok (-2), w)
  /\ (-2 <> 0 /\ -2 <> -1)
  /\ (forall env' path' is_pdf' w' text',
        extract_text env' path' is_pdf' = Ok text' ->
        truthy (strip text') = true ->
        split_text env' text' = [] ->
        process_philosophy_ingestion env' path' is_pdf' w' = (Ok 0, w'))
  /\ (forall env' path' is_pdf' w' e,
        extract_text env' path' is_pdf' = Raise e ->
        process_philosophy_ingestion env' path' is_pdf' w' = (Ok (-1), w')).
Proof.
  intros Hx Hws. split; [|split; [lia|split]].
  - unfold process_philosophy_ingestion, try_except, bindM, lift.
    rewrite Hx, (strip_whitespace_only text Hws). reflexivity.
  - intros env' path' is_pdf' w' text' Hx' Hs' Hsplit.
    unfold process_philosophy_ingestion, try_except, bindM, lift.
    rewrite Hx', Hs', Hsplit. reflexivity.
  - intros env' path' is_pdf' w' e Hx'.
    unfold process_philosophy_ingestion, try_except, bindM, lift.
    rewrite Hx'. reflexivity.
Qed.

Lemma philosophy_ingestion_empty_document_witness :
  process_philosophy_ingestion Examples.env_ok "letters.pdf" true
    Examples.world_c
  = (Ok (-2), Examples.world_c).
Proof.
  apply (philosophy_ingestion_empty_document Examples.env_ok "letters.pdf"
           true Examples.world_c (" " +:+ Persona.nl)).
  - reflexivity.
  - exists [0x20; 0x0A]. split; reflexivity.
Defined.

End IngestFacts.

(** ** Chat turns *)

Section ChatFacts.

Import Persona Chat.
Local Open Scope string_scope.

Lemma append_cons (c : ascii) (s t : string) :
  String c s +:+ t = String c (s +:+ t).
Proof. reflexivity. Qed.

Lemma append_nil_r (s : string) : s +:+ EmptyString = s.
Proof.
  induction s as [|c s IH]; [reflexivity|].
  rewrite append_cons, IH. reflexivity.
Qed.

Lemma append_assoc (a b c : string) : (a +:+ b) +:+ c = a +:+ (b +:+ c).
Proof.
  induction a as [|x a IH]; [reflexivity|].
  rewrite !append_cons, IH. reflexivity.
Qed.

Lemma same_but_config_refl (w : World) : same_but_config w w.
Proof. repeat split. Qed.

Lemma load_persona_frame (w : World) :
  same_but_config w (snd (load_persona_config w)).
Proof.
  destruct (config w) as [|e|d] eqn:Hc.
  - rewrite load_absent by exact Hc. repeat split.
  - rewrite (load_malformed w e Hc). repeat split.
  - rewrite (load_object w d Hc). destruct (missing_some d); repeat split.
Qed.

Lemma prompt_world (w : World) :
  snd (build_dynamic_system_prompt w) = snd (load_persona_config w).
Proof.
  unfold build_dynamic_system_prompt, bindM.
  destruct (load_persona_config w) as [[p|e] w1]; [|reflexivity].
  unfold getitem, ret, raise.
  repeat match goal with
         | |- context [p !! ?k] => destruct (p !! k); [|reflexivity]
         end.
  reflexivity.
Qed.

Lemma text_prompt_frame (env : Env) (message : string) (w : World) :
  same_but_config w (snd (text_prompt env message w)).
Proof.
  unfold text_prompt, bindM, Store.similarity_search, bindM, guard, gets,
    raise, ret.
  destruct (fault env StoreSearch); [apply same_but_config_refl|].
  pose proof (load_persona_frame w) as Hf. rewrite <- prompt_world in Hf.
  destruct (build_dynamic_system_prompt w) as [[sp|e] w1]; exact Hf.
Qed.

Lemma emit_all_wire (rest : list string) (w : World) :
  exists stamps,
    wire (emit_all rest w) = (wire w ++ stamps)%list
    /\ map snd stamps = rest
    /\ Forall (fun st => (fst st < clock (emit_all rest w))%nat) stamps
    /\ (clock w <= clock (emit_all rest w))%nat
    /\ turns (emit_all rest w) = turns w
    /\ turn_seq (emit_all rest w) = turn_seq w.
Proof.
  revert w. induction rest as [|t rest IH]; intros w.
  - exists []. simpl. rewrite app_nil_r. repeat split; auto.
  - destruct (IH (emit t w)) as (stamps & Hw & Hm & Hf & Hc & Ht & Hs).
    exists ((clock w, t) :: stamps). simpl in *.
    rewrite Hw, <- app_assoc. simpl. repeat split; try congruence; [|lia].
    constructor; [simpl; lia|exact Hf].
Qed.

(** One text turn: the form fields of the request are fixed. *)
Section TextTurn.

Variable env : Env.
Variables (message : string) (la lo : float).

(** A connected client drains the generator, which then saves the turn. *)
Lemma stream_suspended_complete (rest : list string) (acc : string)
    (pulls : nat) (w : World) :
  fault env DbInsert = None ->
  (length rest < pulls)%nat ->
  stream_response env message la lo pulls (Suspended acc rest None) w
  = (Completed,
     push_turn
       (fun id => Turn id (clock (emit_all rest w)) message
                    (acc +:+ concat_str rest) la lo "text")
       (advance (emit_all rest w))).
Proof.
  intros Hdb. revert acc pulls w.
  induction rest as [|t rest IH]; intros acc pulls w Hp;
    (destruct pulls as [|pulls]; [simpl in Hp; lia|]).
  - simpl. unfold save_text_turn, bindM, now, insert_turn, bindM, guard,
      modify, ret.
    rewrite Hdb. unfold concat_str. simpl. rewrite append_nil_r. reflexivity.
  - simpl. rewrite IH by (simpl in Hp; lia).
    unfold concat_str. simpl. rewrite append_assoc. reflexivity.
Qed.


(** The first pull runs retrieval and prompt assembly, then enters the
    loop. *)
Lemma stream_created (pulls : nat) (w w1 : World) (prompt : string)
    (tokens : list string) (fin : option string) :
  text_prompt env message w = (Ok prompt, w1) ->
  ollama_stream env prompt = (tokens, fin) ->
  chat_text env message la lo (Datatypes.S pulls) w
  = stream_response env message la lo (Datatypes.S pulls)
      (Suspended EmptyString tokens fin) w1.
Proof.
  intros Hp Hs. unfold chat_text. simpl. rewrite Hp, Hs. reflexivity.
Qed.



(** C1. In a text turn whose generation completes naturally (retrieval
    and prompt assembly return, the token stream ends without an
    exception, the client stays until the end, the insert succeeds) the
    fragments handed to the client are the tokens in order, exactly one
    row is appended to the turns table, its [bot_res] is the
    concatenation of those fragments, and its timestamp was read after
    every one of them had been handed out. *)
Theorem chat_text_complete_turn (pulls : nat) (w w1 : World)
    (prompt : string) (tokens : list string) :
  text_prompt env message w = (Ok prompt, w1) ->
  ollama_stream env prompt = (tokens, None) ->
  fault env DbInsert = None ->
  (length tokens < pulls)%nat ->
  exists w' row,
    chat_text env message la lo pulls w = (Completed, w')
    /\ map snd (sent w w') = tokens
    /\ turns w' = (turns w ++ [row])%list
    /\ bot_res row = concat_str (map snd (sent w w'))
    /\ Forall (fun st => (fst st < timestamp row)%nat) (sent w w')
    /\ user_msg row = message /\ type_ row = "text"
    /\ lat row = la /\ lon row = lo.
Proof.
  intros Hp Hs Hdb Hlen.
  destruct pulls as [|pulls]; [lia|].
  rewrite (stream_created pulls w w1 prompt tokens None Hp Hs).
  rewrite (stream_suspended_complete tokens EmptyString _ w1 Hdb Hlen).
  pose proof (text_prompt_frame env message w) as Hf. rewrite Hp in Hf.
  destruct Hf as (_ & Ht & Hseq & _ & _ & Hw & _). simpl in Ht, Hseq, Hw.
  destruct (emit_all_wire tokens w1) as (stamps & Hwire & Hm & Hst & _ & Ht' & _).
  eexists. eexists. split; [reflexivity|].
  assert (Hsent : sent w (push_turn
            (fun id => Turn id (clock (emit_all tokens w1)) message
                         (EmptyString +:+ concat_str tokens) la lo "text")
            (advance (emit_all tokens w1))) = stamps).
  { unfold sent. simpl. rewrite Hwire, Hw. apply drop_app_length. }
  rewrite Hsent. simpl. rewrite Ht', Ht, Hm.
  repeat split. exact Hst.
Qed.


End TextTurn.

Lemma chat_text_complete_turn_witness :
  exists w' row,
    chat_text Examples.env_ok "Are you there?" 34%float (-118)%float 4
      Examples.world_c = (Completed, w')
    /\ map snd (sent Examples.world_c w') = ["Hel"; "lo"; "!"]
    /\ turns w' = [row]
    /\ bot_res row = "Hello!"
    /\ Forall (fun st => (fst st < timestamp row)%nat)
         (sent Examples.world_c w').
Proof.
  destruct (chat_text_complete_turn Examples.env_ok "Are you there?"
              34%float (-118)%float 4 Examples.world_c
              (snd (text_prompt Examples.env_ok "Are you there?"
                      Examples.world_c))
              match fst (text_prompt Examples.env_ok "Are you there?"
                           Examples.world_c) with
              | Ok prompt => prompt
              | Raise e => e
              end
              ["Hel"; "lo"; "!"])
    as (w' & row & Hrun & Hsent & Hturns & Hres & Hts & _).
  - vm_compute. reflexivity.
  - reflexivity.
  - reflexivity.
  - simpl. lia.
  - exists w', row. rewrite Hsent in Hres.
    repeat split; assumption.
Defined.


(** The [try] block of the image turn leaves the files alone until its
    last statement, which removes the transient file. *)
Lemma image_turn_files (env : Env) (message temp_file : string)
    (w1 w2 : World) (upload : list Z) (r : result string) :
  files w1 !! temp_file = Some upload ->
  image_turn env message temp_file w1 = (r, w2) ->
  match r with
  | Ok _ => files w2 = delete temp_file (files w1)
  | Raise _ => files w2 = files w1
  end.
Proof.
  intros Hf. unfold image_turn, bindM at 1.
  unfold Store.similarity_search, bindM, guard, gets, raise, ret.
  destruct (fault env StoreSearch) as [e|]; [intros [= <- <-]; reflexivity|].
  pose proof (load_persona_frame w1) as Hfr. rewrite <- prompt_world in Hfr.
  destruct (build_dynamic_system_prompt w1) as [[sp|e] wa];
    destruct Hfr as (_ & _ & _ & Hfa & _); simpl in Hfa;
    [|intros [= <- <-]; exact Hfa].
  unfold lift. destruct (ollama_generate env _ _) as [bot|e];
    [|intros [= <- <-]; exact Hfa].
  unfold now, insert_turn, bindM, guard, modify, raise, ret.
  destruct (fault env DbInsert) as [e|]; [intros [= <- <-]; exact Hfa|].
  unfold os_remove.
  change (files (push_turn ?mk (advance wa))) with (files wa).
  rewrite Hfa, Hf. intros [= <- <-]. reflexivity.
Qed.

(** C5. Whatever happens in an image turn, the transient file made from
    the upload is gone when the endpoint answers and no other file has
    changed.  The answer is the generated text when the [try] block
    returns, and a 500 carrying the message of the exception when
    retrieval, prompt assembly, generation or the insert raises. *)
Theorem chat_image_removes_temp_file (env : Env) (message filename : string)
    (upload : list Z) (w : World) :
  let temp_file := "temp_" +:+ filename in
  let w1 := set_files (<[temp_file := upload]> (files w)) w in
  let run := chat_image env message filename upload w in
  files (snd run) !! temp_file = None
  /\ (forall path, path <> temp_file ->
       files (snd run) !! path = files w !! path)
  /\ match fst (image_turn env message temp_file w1) with
     | Ok bot_res => fst run = Http200 bot_res
     | Raise e => fst run = HttpError 500 e
     end
  /\ (forall e, fault env StoreSearch = Some e -> fst run = HttpError 500 e).
Proof.
  intros temp_file w1 run.
  assert (Hf1 : files w1 !! temp_file = Some upload)
    by apply lookup_insert_eq.
  assert (Hrun : run = match image_turn env message temp_file w1 with
                       | (Ok bot_res, w2) => (Http200 bot_res, w2)
                       | (Raise e, w2) =>
                           (HttpError 500 e,
                            set_files (delete temp_file (files w2)) w2)
                       end).
  { unfold run, chat_image, serve, bindM at 1, modify. fold temp_file w1.
    unfold try_except, bindM at 1.
    pose proof (image_turn_files env message temp_file w1) as Hfiles.
    destruct (image_turn env message temp_file w1) as [[bot|e] w2].
    - reflexivity.
    - specialize (Hfiles w2 upload (Raise e) Hf1 eq_refl). simpl in Hfiles.
      unfold bindM, os_path_exists, gets, os_remove, ret.
      assert (H2 : files w2 !! temp_file = Some upload)
        by (rewrite Hfiles; apply lookup_insert_eq).
      rewrite bool_decide_eq_true_2 by (rewrite H2; eauto).
      rewrite H2. reflexivity. }
  pose proof (image_turn_files env message temp_file w1) as Hfiles.
  assert (Hdel : files (snd run) = delete temp_file (files w1)).
  { rewrite Hrun.
    destruct (image_turn env message temp_file w1) as [[bot|e] w2].
    - exact (Hfiles w2 upload (Ok bot) Hf1 eq_refl).
    - simpl. rewrite (Hfiles w2 upload (Raise e) Hf1 eq_refl). reflexivity. }
  split; [rewrite Hdel; apply lookup_delete_eq|].
  split.
  { intros path Hne. rewrite Hdel, lookup_delete_ne by congruence.
    unfold w1. simpl. apply lookup_insert_ne. congruence. }
  split.
  { rewrite Hrun.
    destruct (image_turn env message temp_file w1) as [[bot|e] w2];
      reflexivity. }
  intros e He. rewrite Hrun.
  unfold image_turn, bindM at 1, Store.similarity_search, bindM, guard, raise.
  rewrite He. reflexivity.
Qed.

End ChatFacts.

(** ** Persona: first start, prompt, update *)

Section AdminFacts.

Import Persona Admin.
Local Open Scope string_scope.

Lemma default_persona_is_complete :
  (list_to_map default_persona : gmap string string) ∪ list_to_map defaults
  = list_to_map default_persona.
Proof. vm_compute. reflexivity. Qed.

Lemma complete_union (d : gmap string string) :
  Forall (fun k => is_Some (d !! k)) schema_keys ->
  d ∪ list_to_map defaults = d.
Proof.
  intros Hall. apply map_eq. intros k. rewrite lookup_union.
  destruct (d !! k) as [v|] eqn:Hk.
  - destruct (list_to_map defaults !! k); reflexivity.
  - destruct (list_to_map defaults !! k) as [v|] eqn:Hd; [|reflexivity].
    exfalso. rewrite Forall_forall in Hall.
    assert (Hin : k ∈ schema_keys).
    { destruct (decide (k ∈ schema_keys)) as [H|H]; [exact H|].
      apply (not_elem_of_list_to_map (M := gmap string)) in H.
      unfold schema_keys in H. congruence. }
    apply Hall in Hin. rewrite Hk in Hin. destruct Hin as [? [=]].
Qed.

Lemma complete_no_missing (d : gmap string string) :
  Forall (fun k => is_Some (d !! k)) schema_keys ->
  missing_some d = false.
Proof.
  intros Hall. rewrite <- (complete_union d Hall). apply backfilled_stable.
Qed.

(** A load of a file that has the whole schema returns it unchanged and
    writes nothing. *)
Lemma load_complete_file (w : World) (d : gmap string string) :
  config w = Object d ->
  Forall (fun k => is_Some (d !! k)) schema_keys ->
  load_persona_config w = (Ok d, w).
Proof.
  intros Hc Hall. rewrite (load_object w d Hc).
  rewrite (complete_no_missing d Hall), (complete_union d Hall). reflexivity.
Qed.

Lemma dict_update_lookup (items : list (string * string))
    (p : gmap string string) :
  NoDup (map fst items) ->
  (forall k v, In (k, v) items -> dict_update p items !! k = Some v)
  /\ (forall k, ~ In k (map fst items) -> dict_update p items !! k = p !! k).
Proof.
  unfold dict_update. revert p.
  induction items as [|[k0 v0] items IH]; intros p Hnd.
  - split; [intros k v []|reflexivity].
  - apply NoDup_cons in Hnd as [Hk0 Hnd]. simpl.
    destruct (IH (<[k0 := v0]> p) Hnd) as [IH1 IH2]. split.
    + intros k v [[= <- <-]|Hin]; [|apply IH1, Hin].
      rewrite IH2 by (rewrite <- list_elem_of_In; exact Hk0).
      apply lookup_insert_eq.
    + intros k Hk. rewrite IH2 by tauto.
      apply lookup_insert_ne. intros ->. apply Hk. left. reflexivity.
Qed.

Lemma form_keys (f : persona_form) : map fst (form_items f)
  = [ "deceased_name"; "user_name"; "user_nickname"; "relationship";
      "date_of_death"; "dimension"; "personality_traits"; "philosophy";
      "achievements" ].
Proof. reflexivity. Qed.

Lemma form_keys_nodup (f : persona_form) : NoDup (map fst (form_items f)).
Proof.
  rewrite form_keys.
  repeat (apply NoDup_cons_2;
          [rewrite list_elem_of_In; simpl; intuition discriminate|]).
  apply NoDup_nil_2.
Qed.

Lemma form_keys_schema (f : persona_form) (k : string) :
  In k (map fst (form_items f)) <-> In k schema_keys.
Proof. rewrite form_keys. unfold schema_keys. simpl. tauto. Qed.

Lemma updated_complete (f : persona_form) (p : gmap string string) :
  Forall (fun k => is_Some (dict_update p (form_items f) !! k)) schema_keys.
Proof.
  apply Forall_forall. intros k Hk.
  apply list_elem_of_In in Hk. apply (form_keys_schema f) in Hk.
  apply in_map_iff in Hk. destruct Hk as ([k' v] & <- & Hin).
  destruct (dict_update_lookup (form_items f) p (form_keys_nodup f)) as [H _].
  exists v. exact (H k' v Hin).
Qed.

Lemma update_persona_run (f : persona_form) (w w0 : World)
    (p : gmap string string) :
  load_persona_config w = (Ok p, w0) ->
  update_persona f w
  = (Http200 saved_page,
     set_config (Object (dict_update p (form_items f))) w0).
Proof.
  intros Hl. unfold update_persona, Chat.serve, bindM.
  rewrite Hl. reflexivity.
Qed.

(** X1. On first start, with no persona file, a load creates the file
    with the installation defaults (not the migration defaults), writes
    once and returns that mapping; the next load returns the same
    mapping and writes nothing. *)
Theorem load_persona_config_first_start (w : World) :
  config w = Absent ->
  let w' := set_config (Object (list_to_map default_persona)) w in
  load_persona_config w = (Ok (list_to_map default_persona), w')
  /\ config_writes w' = Datatypes.S (config_writes w)
  /\ load_persona_config w' = (Ok (list_to_map default_persona), w')
  /\ (list_to_map default_persona : gmap string string) !! "deceased_name"
     = Some "loved one's name".
Proof.
  intros Hc w'. subst w'. split; [|split; [reflexivity|split]].
  - rewrite (load_absent w Hc), default_persona_is_complete. reflexivity.
  - apply load_complete_file; [reflexivity|].
    rewrite <- default_persona_is_complete. apply backfilled_complete.
  - vm_compute. reflexivity.
Qed.

Lemma load_persona_config_first_start_witness :
  fst (load_persona_config Examples.world0)
  = Ok (list_to_map default_persona)
  /\ config_writes (snd (load_persona_config Examples.world0)) = 1%nat.
Proof.
  destruct (load_persona_config_first_start Examples.world0 eq_refl)
    as (H & _). rewrite H. split; reflexivity.
Defined.

(** X2. The system prompt is built whenever the load returns: none of its
    nine lookups raises [KeyError], the world is the one the load left,
    and the prompt opens with the role line naming the deceased.  When
    the load raises, the prompt raises the same exception. *)
Theorem build_dynamic_system_prompt_total (w w' : World)
    (r : result (gmap string string)) :
  load_persona_config w = (r, w') ->
  match r with
  | Ok p =>
      exists name rest,
        p !! "deceased_name" = Some name
        /\ build_dynamic_system_prompt w
           = (Ok (nl +:+ "ROLE: You are the digital persona of " +:+ name
                  +:+ "." +:+ nl +:+ rest), w')
  | Raise e => build_dynamic_system_prompt w = (Raise e, w')
  end.
Proof.
  intros Hl. destruct r as [p|e].
  - pose proof (load_complete w w' p Hl) as Hall.
    rewrite Forall_forall in Hall.
    assert (Hk : forall k, In k schema_keys -> exists v, p !! k = Some v).
    { intros k Hk. apply list_elem_of_In, Hall in Hk. exact Hk. }
    unfold schema_keys in Hk. simpl in Hk.
    destruct (Hk "deceased_name") as [v1 H1]; [tauto|].
    destruct (Hk "relationship") as [v2 H2]; [tauto|].
    destruct (Hk "user_name") as [v3 H3]; [tauto|].
    destruct (Hk "user_nickname") as [v4 H4]; [tauto|].
    destruct (Hk "personality_traits") as [v5 H5]; [tauto|].
    destruct (Hk "philosophy") as [v6 H6]; [tauto|].
    destruct (Hk "achievements") as [v7 H7]; [tauto|].
    destruct (Hk "date_of_death") as [v8 H8]; [tauto|].
    destruct (Hk "dimension") as [v9 H9]; [tauto|].
    exists v1. eexists. split; [exact H1|].
    unfold build_dynamic_system_prompt, bindM. rewrite Hl.
    unfold getitem, ret. rewrite H1, H2, H3, H4, H5, H6, H7, H8, H9.
    reflexivity.
  - unfold build_dynamic_system_prompt, bindM. rewrite Hl. reflexivity.
Qed.

Lemma build_dynamic_system_prompt_total_witness :
  exists name rest,
    (Examples.old_persona ∪ list_to_map defaults) !! "deceased_name"
    = Some name
    /\ build_dynamic_system_prompt Examples.old_world
       = (Ok (nl +:+ "ROLE: You are the digital persona of " +:+ name
              +:+ "." +:+ nl +:+ rest),
          set_config (Object (Examples.old_persona ∪ list_to_map defaults))
            Examples.old_world).
Proof.
  apply (build_dynamic_system_prompt_total Examples.old_world _
           (Ok (Examples.old_persona ∪ list_to_map defaults))).
  rewrite (load_object _ Examples.old_persona) by reflexivity.
  replace (missing_some Examples.old_persona) with true
    by (vm_compute; reflexivity).
  reflexivity.
Defined.

(** X3. After a persona update on a readable configuration the file
    holds the loaded mapping overwritten with the nine submitted fields:
    [GET /api/persona] then returns each submitted value under its key,
    keeps every key outside the schema as the load had it, and writes
    nothing further. *)
Theorem update_persona_round_trip (f : persona_form) (w w0 : World)
    (p : gmap string string) :
  load_persona_config w = (Ok p, w0) ->
  let p' := dict_update p (form_items f) in
  let w1 := set_config (Object p') w0 in
  update_persona f w = (Http200 saved_page, w1)
  /\ get_persona_api w1 = (Http200 p', w1)
  /\ (forall k v, In (k, v) (form_items f) -> p' !! k = Some v)
  /\ (forall k, ~ In k schema_keys -> p' !! k = p !! k).
Proof.
  intros Hl p' w1. subst w1 p'.
  destruct (dict_update_lookup (form_items f) p (form_keys_nodup f))
    as [Hin Hout].
  split; [apply update_persona_run, Hl|].
  split; [|split; [exact Hin|]].
  - unfold get_persona_api, Chat.serve, bindM.
    rewrite (load_complete_file
               (set_config (Object (dict_update p (form_items f))) w0)
               _ eq_refl (updated_complete f p)).
    reflexivity.
  - intros k Hk. apply Hout. rewrite form_keys_schema. exact Hk.
Qed.

Lemma update_persona_round_trip_witness :
  let w1 := snd (update_persona MoreExamples.form_a Examples.old_world) in
  exists p',
    get_persona_api w1 = (Http200 p', w1)
    /\ p' !! "deceased_name" = Some "Ada"
    /\ p' !! "achievements" = Some EmptyString.
Proof.
  intros w1.
  destruct (update_persona_round_trip MoreExamples.form_a Examples.old_world
              (set_config (Object (Examples.old_persona ∪ list_to_map defaults))
                 Examples.old_world)
              (Examples.old_persona ∪ list_to_map defaults))
    as (Hrun & Hget & Hin & _).
  - rewrite (load_object _ Examples.old_persona) by reflexivity.
    replace (missing_some Examples.old_persona) with true
      by (vm_compute; reflexivity).
    reflexivity.
  - subst w1. rewrite Hrun. eexists. split; [exact Hget|].
    split; apply Hin; simpl; tauto.
Defined.

(** X4. With a persona file that does not load, the update answers with
    the framework's 500 and the file is left as it is; so does
    [GET /api/persona]. *)
Theorem update_persona_unreadable (f : persona_form) (w : World)
    (e : string) :
  config w = Malformed e ->
  update_persona f w = (HttpError 500 "Internal Server Error", w)
  /\ get_persona_api w = (HttpError 500 "Internal Server Error", w).
Proof.
  intros Hc. unfold update_persona, get_persona_api, Chat.serve, bindM.
  rewrite (load_malformed w e Hc). split; reflexivity.
Qed.

Lemma update_persona_unreadable_witness :
  update_persona MoreExamples.form_a MoreExamples.world_broken
  = (HttpError 500 "Internal Server Error", MoreExamples.world_broken).
Proof.
  apply (update_persona_unreadable MoreExamples.form_a
           MoreExamples.world_broken _ eq_refl).
Defined.



End AdminFacts.

(** ** Ingestion: result codes, partial failure, uploads *)

Section IngestMoreFacts.

Import Store Ingest Admin Rows.
Local Open Scope string_scope.

Lemma same_but_collection_set (c : gmap nat item) (w : World) :
  same_but_collection w (set_collection c w).
Proof. repeat split. Qed.

Lemma same_but_collection_refl (w : World) : same_but_collection w w.
Proof. repeat split. Qed.

Lemma same_but_collection_trans (w1 w2 w3 : World) :
  same_but_collection w1 w2 -> same_but_collection w2 w3 ->
  same_but_collection w1 w3.
Proof.
  unfold same_but_collection. intros H1 H2.
  repeat split; etransitivity; try apply H2; apply H1.
Qed.

(** The inner block never raises and touches the collection only. *)
Lemma clear_partition_total (env : Env) (ty : string) (w : World) :
  exists w', clear_partition env ty w = (Ok tt, w')
             /\ same_but_collection w w'.
Proof.
  unfold clear_partition, try_except, bindM, collection_get,
    collection_delete, bindM, guard, gets, modify, ret, raise.
  destruct (fault env StoreGet) as [e|].
  - exists w. split; [reflexivity|apply same_but_collection_refl].
  - cbv beta iota. destruct (map fst _) as [|i ids].
    + exists w. split; [reflexivity|apply same_but_collection_refl].
    + destruct (fault env StoreDelete) as [e|].
      * exists w. split; [reflexivity|apply same_but_collection_refl].
      * eexists. split; [reflexivity|apply same_but_collection_set].
Qed.

Lemma add_texts_cases (env : Env) (texts : list string)
    (metas : list (gmap string string)) (w : World) :
  (exists e, fault env StoreAdd = Some e
             /\ add_texts env texts metas w = (Raise e, w))
  \/ (fault env StoreAdd = None
      /\ add_texts env texts metas w
         = (Ok tt, set_collection (add_all texts metas (collection w)) w)).
Proof.
  unfold add_texts, bindM, guard, modify, raise, ret.
  destruct (fault env StoreAdd) as [e|]; [left|right]; eauto.
Qed.

Lemma process_csv_total (env : Env) (path : string) (w : World) :
  exists n w', process_csv_ingestion env path w = (Ok n, w')
               /\ -1 <= n /\ same_but_collection w w'.
Proof.
  unfold process_csv_ingestion, try_except, bindM at 1, lift.
  destruct (csv_rows env path) as [rows|e].
  - destruct (fold_left collect_row rows ([], [])) as [docs metas].
    destruct docs as [|d docs].
    + exists 0, w. repeat split. lia.
    + unfold bindM at 1.
      destruct (clear_partition_total env "fact" w) as (w1 & -> & Hf1).
      unfold bindM.
      destruct (add_texts_cases env (d :: docs) metas w1)
        as [(e & _ & ->)|[_ ->]].
      * exists (-1), w1. split; [reflexivity|]. split; [lia|exact Hf1].
      * eexists. eexists. split; [reflexivity|]. split; [lia|].
        eapply same_but_collection_trans;
          [exact Hf1|apply same_but_collection_set].
  - exists (-1), w. repeat split. lia.
Qed.

Lemma process_philosophy_total (env : Env) (path : string) (is_pdf : bool)
    (w : World) :
  exists n w', process_philosophy_ingestion env path is_pdf w = (Ok n, w')
               /\ -2 <= n /\ same_but_collection w w'.
Proof.
  unfold process_philosophy_ingestion, try_except, bindM at 1, lift.
  destruct (extract_text env path is_pdf) as [text|e].
  - destruct (negb (truthy (strip text))).
    + exists (-2), w. repeat split. lia.
    + destruct (split_text env text) as [|c chunks].
      * exists 0, w. repeat split. lia.
      * unfold bindM at 1.
        destruct (clear_partition_total env "philosophy" w)
          as (w1 & -> & Hf1).
        unfold bindM.
        match goal with
        | |- context [add_texts env ?ts ?ms w1] =>
            destruct (add_texts_cases env ts ms w1) as [(e & _ & ->)|[_ ->]]
        end.
        -- exists (-1), w1. split; [reflexivity|]. split; [lia|exact Hf1].
        -- eexists. eexists. split; [reflexivity|]. split; [lia|].
           eapply same_but_collection_trans;
             [exact Hf1|apply same_but_collection_set].
  - exists (-1), w. repeat split. lia.
Qed.

(** X6. Both ingestion pipelines always return a code and never raise:
    the facts pipeline a count or -1, the philosophy pipeline a count,
    -1 or -2; and whatever happens they change nothing but the
    collection. *)
Theorem ingestion_returns_code (env : Env) (path : string) (is_pdf : bool)
    (w : World) :
  (exists n w', process_csv_ingestion env path w = (Ok n, w')
                /\ -1 <= n /\ same_but_collection w w')
  /\ (exists n w',
        process_philosophy_ingestion env path is_pdf w = (Ok n, w')
        /\ -2 <= n /\ same_but_collection w w').
Proof.
  split; [apply process_csv_total|apply process_philosophy_total].
Qed.

(** The loop over the rows appends, in order, the document and the
    metadata of each usable row. *)
Lemma collect_rows_usable (rows : list (gmap string string))
    (docs : list string) (metas : list (gmap string string)) :
  fold_left collect_row rows (docs, metas)
  = ((docs ++ map row_document (List.filter usable rows))%list,
     (metas ++ map row_metadata (List.filter usable rows))%list).
Proof.
  revert docs metas. induction rows as [|row rows IH]; intros docs metas.
  - simpl. rewrite !app_nil_r. reflexivity.
  - assert (Hstep : collect_row (docs, metas) row
                    = if usable row
                      then ((docs ++ [row_document row])%list,
                            (metas ++ [row_metadata row])%list)
                      else (docs, metas)).
    { unfold collect_row, usable, row_document, row_metadata.
      destruct (row_text row) as [text|]; [|reflexivity].
      destruct (truthy text); reflexivity. }
    cbn [fold_left List.filter]. rewrite Hstep.
    destruct (usable row); rewrite IH; [|reflexivity].
    simpl. rewrite <- !app_assoc. reflexivity.
Qed.

(** X7. The replacement is not atomic.  When the lookup and the deletion
    succeed but the insertion raises, either pipeline returns -1 after
    the partition has been emptied: the earlier items of the ingested
    type are gone and nothing has taken their place. *)
Theorem ingestion_insert_raises_after_delete (env : Env) (w : World)
    (e : string) :
  fault env StoreGet = None ->
  fault env StoreDelete = None ->
  fault env StoreAdd = Some e ->
  (forall path rows,
     csv_rows env path = Ok rows ->
     List.filter usable rows <> [] ->
     exists w',
       process_csv_ingestion env path w = (Ok (-1), w')
       /\ collection w'
          = filter (fun kv => has_type "fact" (snd kv) = false) (collection w)
       /\ forall id it, collection w' !! id = Some it ->
                        has_type "fact" it = false)
  /\ (forall path is_pdf text,
        extract_text env path is_pdf = Ok text ->
        truthy (strip text) = true ->
        split_text env text <> [] ->
        exists w',
          process_philosophy_ingestion env path is_pdf w = (Ok (-1), w')
          /\ collection w'
             = filter (fun kv => has_type "philosophy" (snd kv) = false)
                 (collection w)
          /\ forall id it, collection w' !! id = Some it ->
                           has_type "philosophy" it = false).
Proof.
  intros Hg Hd Ha. split.
  - intros path rows Hrows Hne.
    exists (set_collection
              (filter (fun kv => has_type "fact" (snd kv) = false)
                 (collection w)) w).
    split; [|split; [reflexivity|]].
    + unfold process_csv_ingestion, try_except, bindM at 1, lift.
      rewrite Hrows, collect_rows_usable, !app_nil_l.
      destruct (List.filter usable rows) as [|row used]; [congruence|].
      cbn [map]. cbv beta iota. unfold bindM.
      rewrite (clear_partition_ok env Hg Hd "fact" w).
      unfold add_texts, bindM, guard, raise. rewrite Ha. reflexivity.
    + intros id it H. simpl in H.
      apply map_lookup_filter_Some in H as [_ H]. exact H.
  - intros path is_pdf text Hx Hs Hne.
    exists (set_collection
              (filter (fun kv => has_type "philosophy" (snd kv) = false)
                 (collection w)) w).
    split; [|split; [reflexivity|]].
    + unfold process_philosophy_ingestion, try_except, bindM at 1, lift.
      rewrite Hx, Hs. change (negb true) with false. cbv iota.
      destruct (split_text env text) as [|c chunks]; [congruence|].
      unfold bindM. rewrite (clear_partition_ok env Hg Hd "philosophy" w).
      unfold add_texts, bindM, guard, raise. rewrite Ha. reflexivity.
    + intros id it H. simpl in H.
      apply map_lookup_filter_Some in H as [_ H]. exact H.
Qed.

Lemma ingestion_insert_raises_after_delete_witness :
  exists w',
    process_csv_ingestion MoreExamples.env_add_down "facts.csv"
      Examples.world_c = (Ok (-1), w')
    /\ collection Examples.world_c !! 0%nat = Some Examples.fact_c
    /\ collection w' !! 0%nat = None
    /\ collection w' !! 1%nat = Some Examples.chunk_p.
Proof.
  destruct (ingestion_insert_raises_after_delete MoreExamples.env_add_down
              Examples.world_c "disk full" eq_refl eq_refl eq_refl)
    as [Hcsv _].
  destruct (Hcsv "facts.csv" Examples.facts_rows) as (w' & Hrun & Hc & _).
  - reflexivity.
  - vm_compute. discriminate.
  - exists w'. split; [exact Hrun|]. rewrite Hc.
    repeat split; vm_compute; reflexivity.
Defined.

(** X8. With the store answering, the facts pipeline returns the number
    of rows that supply usable text, however many unusable rows lie
    between them, and inserts for each such row, in the order of the
    file, the document [passage: text] with the fact metadata (year
    [Unknown] when the row has no [year] key).  Rows are dictionaries
    of string fields. *)
Theorem csv_ingestion_counts_usable_rows (env : Env) (path : string)
    (w : World) (rows : list (gmap string string)) :
  fault env StoreGet = None ->
  fault env StoreDelete = None ->
  fault env StoreAdd = None ->
  csv_rows env path = Ok rows ->
  List.filter usable rows <> [] ->
  let used := List.filter usable rows in
  process_csv_ingestion env path w
  = (Ok (Z.of_nat (length used)),
     set_collection
       (add_all (map row_document used) (map row_metadata used)
          (filter (fun kv => has_type "fact" (snd kv) = false)
             (collection w))) w)
  /\ Forall (fun row => row_metadata row !! "year"
                        = Some (default "Unknown" (row !! "year"))) used.
Proof.
  intros Hg Hd Ha Hrows Hne used. split.
  - destruct (process_csv_replaces env Hg Hd Ha path w rows
                (map row_document used) (map row_metadata used) Hrows)
      as (w' & Hrun & Hrep & _).
    + apply collect_rows_usable.
    + subst used. destruct (List.filter usable rows); [congruence|discriminate].
    + rewrite Hrun, length_map, Hrep. reflexivity.
  - apply Forall_forall. intros row _. reflexivity.
Qed.

Lemma csv_ingestion_counts_usable_rows_witness :
  fst (process_csv_ingestion Examples.env_ok "facts.csv" Examples.world_c)
  = Ok 2.
Proof.
  destruct (csv_ingestion_counts_usable_rows Examples.env_ok "facts.csv"
              Examples.world_c Examples.facts_rows
              eq_refl eq_refl eq_refl eq_refl) as [H _].
  - vm_compute. discriminate.
  - rewrite H. reflexivity.
Defined.

(** X9. The two upload endpoints always answer 200 with the code of the
    pipeline in the page, even when the pipeline failed, and the file
    written from the upload is gone afterwards while every other file
    is as before. *)
Theorem upload_endpoints_clean_up (env : Env) (filename : string)
    (upload : list Z) (w : World) :
  let path := "temp_" +:+ filename in
  let csv := upload_csv_endpoint env filename upload w in
  let phi := upload_phi_endpoint env filename upload w in
  (files (snd csv) !! path = None
   /\ (forall other, other <> path ->
        files (snd csv) !! other = files w !! other)
   /\ exists n, -1 <= n
        /\ fst csv = Http200 ("<h3>Ingested " +:+ str_int n
                     +:+ " facts. <a href='/dashboard'>Dashboard</a></h3>"))
  /\ (files (snd phi) !! path = None
      /\ (forall other, other <> path ->
           files (snd phi) !! other = files w !! other)
      /\ exists n, -2 <= n
           /\ fst phi = Http200 ("<h3>Ingested " +:+ str_int n
                        +:+ " chunks. <a href='/dashboard'>Dashboard</a></h3>")).
Proof.
  intros path csv phi.
  set (w1 := set_files (<[path := upload]> (files w)) w).
  assert (Hclean : forall w2, same_but_collection w1 w2 ->
            Chat.os_remove path w2
            = (Ok tt, set_files (delete path (files w2)) w2)
            /\ delete path (files w2) !! path = None
            /\ forall other, other <> path ->
                 delete path (files w2) !! other = files w !! other).
  { intros w2 (_ & _ & _ & _ & Hf & _). unfold Chat.os_remove.
    rewrite Hf. unfold w1. simpl files. rewrite lookup_insert_eq.
    split; [reflexivity|]. split; [apply lookup_delete_eq|].
    intros other Hne. rewrite lookup_delete_ne, lookup_insert_ne; congruence. }
  split.
  - destruct (process_csv_total env path w1) as (n & w2 & Hrun & Hn & Hfr).
    destruct (Hclean w2 Hfr) as (Hrm & Hgone & Hrest).
    assert (Hcsv : csv = (Http200 ("<h3>Ingested " +:+ str_int n
                     +:+ " facts. <a href='/dashboard'>Dashboard</a></h3>"),
                          set_files (delete path (files w2)) w2)).
    { unfold csv, upload_csv_endpoint, Chat.serve, bindM at 1, modify.
      fold path w1. unfold bindM at 1. rewrite Hrun.
      unfold bindM. rewrite Hrm. reflexivity. }
    rewrite Hcsv. simpl. split; [exact Hgone|]. split; [exact Hrest|eauto].
  - destruct (process_philosophy_total env path (endswith filename ".pdf") w1)
      as (n & w2 & Hrun & Hn & Hfr).
    destruct (Hclean w2 Hfr) as (Hrm & Hgone & Hrest).
    assert (Hphi : phi = (Http200 ("<h3>Ingested " +:+ str_int n
                     +:+ " chunks. <a href='/dashboard'>Dashboard</a></h3>"),
                          set_files (delete path (files w2)) w2)).
    { unfold phi, upload_phi_endpoint, Chat.serve, bindM at 1, modify.
      fold path w1. unfold bindM at 1. rewrite Hrun.
      unfold bindM. rewrite Hrm. reflexivity. }
    rewrite Hphi. simpl. split; [exact Hgone|]. split; [exact Hrest|eauto].
Qed.

End IngestMoreFacts.

(** ** Chat turns: failures and what is persisted *)

Section ChatMoreFacts.

Import Persona Chat Rowshape.
Local Open Scope string_scope.

Section TextTurnFailures.

Variable env : Env.
Variables (message : string) (la lo : float).

Lemma stream_loop_turns (acc : string) (rest : list string)
    (fin : option string) (w : World) :
  match stream_loop env message la lo acc rest fin w with
  | (Yield _, g', w') => w' = w /\ g' <> Closed
  | (StopIteration, _, w') =>
      (exists row, turns w' = (turns w ++ [row])%list
                   /\ is_text_row message la lo (turn_seq w) row)
      /\ collection w' = collection w
  | (Error _, _, w') => turns w' = turns w /\ collection w' = collection w
  end.
Proof.
  unfold stream_loop. destruct rest as [|t rest].
  - destruct fin as [e|]; [split; reflexivity|].
    unfold save_text_turn, bindM, now, insert_turn, bindM, guard, modify,
      raise, ret.
    destruct (fault env DbInsert) as [e|]; [split; reflexivity|].
    split; [|reflexivity]. eexists. split; [reflexivity|]. repeat split.
  - split; [reflexivity|discriminate].
Qed.

Lemma resume_turns (g : gen) (w : World) :
  g <> Closed ->
  match resume env message la lo g w with
  | (Yield _, g', w') =>
      turns w' = turns w /\ turn_seq w' = turn_seq w
      /\ collection w' = collection w /\ g' <> Closed
  | (StopIteration, _, w') =>
      (exists row, turns w' = (turns w ++ [row])%list
                   /\ is_text_row message la lo (turn_seq w) row)
      /\ collection w' = collection w
  | (Error _, _, w') => turns w' = turns w /\ collection w' = collection w
  end.
Proof.
  intros Hg. destruct g as [|acc rest fin|]; [| |congruence]; simpl.
  - pose proof (text_prompt_frame env message w) as Hf.
    destruct (text_prompt env message w) as [[prompt|e] w1];
      destruct Hf as (Hc & Ht & Hs & _); simpl in Hc, Ht, Hs;
      [|split; assumption].
    destruct (ollama_stream env prompt) as [tokens fin].
    pose proof (stream_loop_turns EmptyString tokens fin w1) as Hl.
    destruct (stream_loop env message la lo EmptyString tokens fin w1)
      as [[[token| |e] g'] w'].
    + destruct Hl as [-> Hg']. auto.
    + destruct Hl as [(row & Hrow & Hshape) Hc']. split; [|congruence].
      exists row. rewrite Hrow, Ht. split; [reflexivity|].
      rewrite <- Hs. exact Hshape.
    + destruct Hl as [Hl1 Hl2]. split; congruence.
  - pose proof (stream_loop_turns acc rest fin w) as Hl.
    destruct (stream_loop env message la lo acc rest fin w)
      as [[[token| |e] g'] w'].
    + destruct Hl as [-> Hg']. auto.
    + exact Hl.
    + exact Hl.
Qed.

Lemma stream_response_turns (pulls : nat) (g : gen) (w : World) :
  g <> Closed ->
  match stream_response env message la lo pulls g w with
  | (Completed, w') =>
      exists row, turns w' = (turns w ++ [row])%list
                  /\ is_text_row message la lo (turn_seq w) row
  | (_, w') => turns w' = turns w
  end
  /\ collection (snd (stream_response env message la lo pulls g w))
     = collection w.
Proof.
  revert g w. induction pulls as [|pulls IH]; intros g w Hg.
  - split; reflexivity.
  - simpl. pose proof (resume_turns g w Hg) as Hr.
    destruct (resume env message la lo g w) as [[[token| |e] g'] w'].
    + destruct Hr as (Ht & Hs & Hc & Hg').
      destruct (IH g' (emit token w') Hg') as [IH1 IH2]. split.
      * destruct (stream_response env message la lo pulls g' (emit token w'))
          as [[| |e] w'']; simpl in IH1;
          rewrite ?Ht, ?Hs in IH1; exact IH1.
      * rewrite IH2. exact Hc.
    + split; apply Hr.
    + split; apply Hr.
Qed.


Lemma stream_suspended_stream_raises (rest : list string) (acc : string)
    (pulls : nat) (w : World) (e : string) :
  (length rest < pulls)%nat ->
  stream_response env message la lo pulls (Suspended acc rest (Some e)) w
  = (Failed e, emit_all rest w).
Proof.
  revert acc pulls w.
  induction rest as [|t rest IH]; intros acc pulls w Hp;
    (destruct pulls as [|pulls]; [simpl in Hp; lia|]).
  - reflexivity.
  - simpl. apply IH. simpl in Hp. lia.
Qed.

Lemma stream_suspended_insert_raises (rest : list string) (acc : string)
    (pulls : nat) (w : World) (e : string) :
  fault env DbInsert = Some e ->
  (length rest < pulls)%nat ->
  stream_response env message la lo pulls (Suspended acc rest None) w
  = (Failed e, advance (emit_all rest w)).
Proof.
  intros Hdb. revert acc pulls w.
  induction rest as [|t rest IH]; intros acc pulls w Hp;
    (destruct pulls as [|pulls]; [simpl in Hp; lia|]).
  - simpl. unfold save_text_turn, bindM, now, insert_turn, bindM, guard,
      raise. rewrite Hdb. reflexivity.
  - simpl. apply IH. simpl in Hp. lia.
Qed.

Lemma sent_emit_all (w w1 : World) (tokens : list string) :
  wire w1 = wire w ->
  map snd (sent w (emit_all tokens w1)) = tokens.
Proof.
  intros Hw. destruct (emit_all_wire tokens w1) as (stamps & Hwire & Hm & _).
  unfold sent. rewrite Hwire, Hw, drop_app_length. exact Hm.
Qed.

(** X11. When the model's stream raises after some tokens, the client
    that stayed connected has received exactly those tokens, the
    response fails with that exception and no row is written: the
    truncated answer is not persisted. *)
Theorem chat_text_stream_raises (pulls : nat) (w w1 : World)
    (prompt : string) (tokens : list string) (e : string) :
  text_prompt env message w = (Ok prompt, w1) ->
  ollama_stream env prompt = (tokens, Some e) ->
  (length tokens < pulls)%nat ->
  exists w',
    chat_text env message la lo pulls w = (Failed e, w')
    /\ map snd (sent w w') = tokens
    /\ turns w' = turns w.
Proof.
  intros Hp Hs Hlen. destruct pulls as [|pulls]; [lia|].
  rewrite (stream_created env message la lo pulls w w1 prompt tokens
             (Some e) Hp Hs).
  rewrite stream_suspended_stream_raises by exact Hlen.
  pose proof (text_prompt_frame env message w) as Hf. rewrite Hp in Hf.
  destruct Hf as (_ & Ht & _ & _ & _ & Hw & _). simpl in Ht, Hw.
  eexists. split; [reflexivity|]. split; [apply sent_emit_all, Hw|].
  destruct (emit_all_wire tokens w1) as (_ & _ & _ & _ & _ & Ht' & _).
  congruence.
Qed.

(** X12. When the vector search raises, a text turn fails with that
    exception on the first pull, before any fragment is sent, and the
    world is left exactly as it was: the store error is not caught and
    the turn does not degrade to an empty context. *)
Theorem chat_text_retrieval_raises (pulls : nat) (w : World) (e : string) :
  fault env StoreSearch = Some e ->
  chat_text env message la lo (Datatypes.S pulls) w = (Failed e, w).
Proof.
  intros Hf. unfold chat_text. simpl.
  unfold text_prompt, bindM, Store.similarity_search, bindM, guard, raise.
  rewrite Hf. reflexivity.
Qed.

(** X13. When the insert into the turns table raises, every token has
    already been handed to the client; the response then fails with
    that exception and the table is unchanged: the persistence error
    is not swallowed. *)
Theorem chat_text_insert_raises (pulls : nat) (w w1 : World)
    (prompt : string) (tokens : list string) (e : string) :
  text_prompt env message w = (Ok prompt, w1) ->
  ollama_stream env prompt = (tokens, None) ->
  fault env DbInsert = Some e ->
  (length tokens < pulls)%nat ->
  exists w',
    chat_text env message la lo pulls w = (Failed e, w')
    /\ map snd (sent w w') = tokens
    /\ turns w' = turns w.
Proof.
  intros Hp Hs Hdb Hlen. destruct pulls as [|pulls]; [lia|].
  rewrite (stream_created env message la lo pulls w w1 prompt tokens
             None Hp Hs).
  rewrite (stream_suspended_insert_raises tokens EmptyString _ w1 e Hdb Hlen).
  pose proof (text_prompt_frame env message w) as Hf. rewrite Hp in Hf.
  destruct Hf as (_ & Ht & _ & _ & _ & Hw & _). simpl in Ht, Hw.
  eexists. split; [reflexivity|].
  split; [apply (sent_emit_all w w1 tokens Hw)|].
  destruct (emit_all_wire tokens w1) as (_ & _ & _ & _ & _ & Ht' & _).
  simpl. congruence.
Qed.

End TextTurnFailures.

Lemma chat_text_stream_raises_witness :
  exists w',
    chat_text MoreExamples.env_stream_breaks "Are you there?"
      0%float 0%float 5 Examples.world_c = (Failed "connection reset", w')
    /\ map snd (sent Examples.world_c w') = ["Hel"; "lo"]
    /\ turns w' = [].
Proof.
  apply (chat_text_stream_raises MoreExamples.env_stream_breaks
           "Are you there?" 0%float 0%float 5 Examples.world_c
           (snd (text_prompt MoreExamples.env_stream_breaks "Are you there?"
                   Examples.world_c))
           match fst (text_prompt MoreExamples.env_stream_breaks
                        "Are you there?" Examples.world_c) with
           | Ok prompt => prompt
           | Raise e => e
           end
           ["Hel"; "lo"] "connection reset").
  - vm_compute. reflexivity.
  - reflexivity.
  - simpl. lia.
Defined.

Lemma chat_text_retrieval_raises_witness :
  chat_text MoreExamples.env_search_down "Are you there?" 0%float 0%float 1
    Examples.world_c
  = (Failed "embedding service unreachable", Examples.world_c).
Proof.
  apply (chat_text_retrieval_raises MoreExamples.env_search_down
           "Are you there?" 0%float 0%float 0 Examples.world_c
           "embedding service unreachable" eq_refl).
Defined.

Lemma chat_text_insert_raises_witness :
  exists w',
    chat_text MoreExamples.env_db_down "Are you there?" 0%float 0%float 4
      Examples.world_c = (Failed "database is locked", w')
    /\ map snd (sent Examples.world_c w') = ["Hel"; "lo"; "!"]
    /\ turns w' = [].
Proof.
  apply (chat_text_insert_raises MoreExamples.env_db_down
           "Are you there?" 0%float 0%float 4 Examples.world_c
           (snd (text_prompt MoreExamples.env_db_down "Are you there?"
                   Examples.world_c))
           match fst (text_prompt MoreExamples.env_db_down
                        "Are you there?" Examples.world_c) with
           | Ok prompt => prompt
           | Raise e => e
           end
           ["Hel"; "lo"; "!"] "database is locked").
  - vm_compute. reflexivity.
  - reflexivity.
  - reflexivity.
  - simpl. lia.
Defined.

Lemma image_turn_turns (env : Env) (message temp_file : string)
    (w1 : World) (upload : list Z) :
  files w1 !! temp_file = Some upload ->
  match image_turn env message temp_file w1 with
  | (Ok bot, w2) =>
      (exists row, turns w2 = (turns w1 ++ [row])%list
                   /\ is_image_row message bot (turn_seq w1) row)
      /\ collection w2 = collection w1
  | (Raise _, w2) => turns w2 = turns w1 /\ collection w2 = collection w1
  end.
Proof.
  intros Hf. unfold image_turn, bindM at 1.
  unfold Store.similarity_search, bindM, guard, gets, raise, ret.
  destruct (fault env StoreSearch) as [e|]; [split; reflexivity|].
  pose proof (load_persona_frame w1) as Hfr. rewrite <- prompt_world in Hfr.
  destruct (build_dynamic_system_prompt w1) as [[sp|e] wa];
    destruct Hfr as (Hc & Ht & Hs & Hfa & _); simpl in Hc, Ht, Hs, Hfa;
    [|split; assumption].
  unfold lift. destruct (ollama_generate env _ _) as [bot|e];
    [|split; assumption].
  unfold now, insert_turn, bindM, guard, modify, raise, ret.
  destruct (fault env DbInsert) as [e|]; [split; assumption|].
  unfold os_remove.
  change (files (push_turn ?mk (advance wa))) with (files wa).
  rewrite Hfa, Hf. split; [|exact Hc].
  eexists. split; [simpl; rewrite Ht; reflexivity|].
  unfold is_image_row. simpl. rewrite Hs. repeat split.
Qed.

Lemma chat_image_run (env : Env) (message filename : string)
    (upload : list Z) (w : World) :
  let temp_file := "temp_" +:+ filename in
  let w1 := set_files (<[temp_file := upload]> (files w)) w in
  chat_image env message filename upload w
  = match image_turn env message temp_file w1 with
    | (Ok bot_res, w2) => (Http200 bot_res, w2)
    | (Raise e, w2) =>
        (HttpError 500 e, set_files (delete temp_file (files w2)) w2)
    end.
Proof.
  intros temp_file w1.
  assert (Hf1 : files w1 !! temp_file = Some upload)
    by apply lookup_insert_eq.
  unfold chat_image, serve, bindM at 1, modify. fold temp_file w1.
  unfold try_except, bindM at 1.
  pose proof (image_turn_files env message temp_file w1) as Hfiles.
  destruct (image_turn env message temp_file w1) as [[bot|e] w2].
  - reflexivity.
  - specialize (Hfiles w2 upload (Raise e) Hf1 eq_refl). simpl in Hfiles.
    unfold bindM, os_path_exists, gets, os_remove, ret.
    assert (H2 : files w2 !! temp_file = Some upload)
      by (rewrite Hfiles; apply lookup_insert_eq).
    rewrite bool_decide_eq_true_2 by (rewrite H2; eauto).
    rewrite H2. reflexivity.
Qed.

(** X14. An image turn is persisted exactly when it succeeds.  A 200
    answer comes with one appended row whose user message is the
    message behind the [[Image] ] mark, whose response is the text
    returned, whose type is [image] and whose coordinates are zero; any
    error is a 500 and leaves the turns table as it was. *)
Theorem chat_image_row_iff_success (env : Env) (message filename : string)
    (upload : list Z) (w : World) :
  match chat_image env message filename upload w with
  | (Http200 bot_res, w') =>
      exists row, turns w' = (turns w ++ [row])%list
                  /\ is_image_row message bot_res (turn_seq w) row
  | (HttpError status _, w') => status = 500 /\ turns w' = turns w
  end.
Proof.
  rewrite chat_image_run.
  set (temp_file := "temp_" +:+ filename).
  set (w1 := set_files (<[temp_file := upload]> (files w)) w).
  pose proof (image_turn_turns env message temp_file w1 upload
                (lookup_insert_eq _ _ _)) as H.
  destruct (image_turn env message temp_file w1) as [[bot|e] w2].
  - apply H.
  - split; [reflexivity|]. apply H.
Qed.

(** The two case analyses above, for use outside this section. *)
Lemma chat_text_turns_cases (env : Env) (message : string) (la lo : float)
    (pulls : nat) (w : World) :
  match chat_text env message la lo pulls w with
  | (Completed, w') =>
      exists row, turns w' = (turns w ++ [row])%list
                  /\ is_text_row message la lo (turn_seq w) row
  | (_, w') => turns w' = turns w
  end.
Proof.
  apply (stream_response_turns env message la lo pulls Created w).
  discriminate.
Qed.

Lemma chat_image_turns_cases (env : Env) (message filename : string)
    (upload : list Z) (w : World) :
  match chat_image env message filename upload w with
  | (Http200 bot_res, w') =>
      exists row, turns w' = (turns w ++ [row])%list
                  /\ is_image_row message bot_res (turn_seq w) row
  | (HttpError _ _, w') => turns w' = turns w
  end.
Proof.
  rewrite chat_image_run.
  set (temp_file := "temp_" +:+ filename).
  set (w1 := set_files (<[temp_file := upload]> (files w)) w).
  pose proof (image_turn_turns env message temp_file w1 upload
                (lookup_insert_eq _ _ _)) as H.
  destruct (image_turn env message temp_file w1) as [[bot|e] w2]; apply H.
Qed.

(** X15. Neither chat turn nor voice synthesis ever modifies the
    knowledge collection, and voice synthesis leaves the turns table
    and the persona file alone as well. *)
Theorem chat_and_voice_keep_collection (env : Env) (message filename : string)
    (la lo : float) (pulls : nat) (upload : list Z) (text : string)
    (w : World) :
  collection (snd (chat_text env message la lo pulls w)) = collection w
  /\ collection (snd (chat_image env message filename upload w))
     = collection w
  /\ (let w' := snd (Voice.generate_voice env text w) in
      collection w' = collection w /\ turns w' = turns w
      /\ config w' = config w /\ config_writes w' = config_writes w).
Proof.
  split; [|split].
  - apply (stream_response_turns env message la lo pulls Created w).
    discriminate.
  - rewrite chat_image_run.
    set (temp_file := "temp_" +:+ filename).
    set (w1 := set_files (<[temp_file := upload]> (files w)) w).
    pose proof (image_turn_turns env message temp_file w1 upload
                  (lookup_insert_eq _ _ _)) as H.
    destruct (image_turn env message temp_file w1) as [[bot|e] w2];
      simpl; apply H.
  - unfold Voice.generate_voice.
    destruct (voice_engine env) as [eng|]; [|repeat split].
    destruct (Voice.blank text); [repeat split|].
    destruct (files w !! _); [repeat split|].
    unfold Voice.synthesize, bindM, os_path_exists, gets, modify, lift, ret.
    destruct (tts_generate eng text _) as [wav|e]; [|repeat split].
    destruct (wav_file eng wav) as [bytes|e]; repeat split.
Qed.

End ChatMoreFacts.

(** ** Voice cache: file names, misses, failures *)

Section VoiceMoreFacts.

Import Voice CacheName.
Local Open Scope string_scope.

Lemma le_bytes_length (n : nat) (x : Z) : length (MD5.le_bytes n x) = n.
Proof. revert x. induction n as [|n IH]; intros x; simpl; congruence. Qed.

Lemma le_bytes_range (n : nat) (x : Z) :
  Forall (fun b => 0 <= b < 256)%Z (MD5.le_bytes n x).
Proof.
  revert x. induction n as [|n IH]; intros x; simpl; constructor.
  - apply Z.mod_pos_bound. lia.
  - apply IH.
Qed.

Lemma hex_digit_is_hex (n : Z) :
  (0 <= n < 16)%Z -> is_hex_char (MD5.hex_digit n) = true.
Proof.
  intros H.
  assert (Hn : In n [0; 1; 2; 3; 4; 5; 6; 7; 8; 9; 10; 11; 12; 13; 14; 15]%Z)
    by (simpl; lia).
  simpl in Hn.
  repeat (destruct Hn as [<-|Hn]; [reflexivity|]). destruct Hn.
Qed.

Lemma hex_shape (bs : list Z) :
  Forall (fun b => 0 <= b < 256)%Z bs ->
  String.length (MD5.hex bs) = (2 * length bs)%nat
  /\ Forall (fun c => is_hex_char c = true)
       (list_ascii_of_string (MD5.hex bs)).
Proof.
  induction 1 as [|b bs Hb _ [IH1 IH2]]; [split; [reflexivity|constructor]|].
  split.
  - simpl. rewrite IH1. lia.
  - simpl. constructor; [|constructor; [|exact IH2]].
    + apply hex_digit_is_hex. split.
      * apply Z.div_pos; lia.
      * apply Z.div_lt_upper_bound; lia.
    + apply hex_digit_is_hex. apply Z.mod_pos_bound. lia.
Qed.

(** X16. For every text the cache path is [./voice_cache/], then 32
    lower-case hexadecimal digits, then [.wav]: whatever the text
    contains, the file lies directly inside the cache directory. *)
Theorem get_voice_cache_path_shape (text : string) :
  exists h,
    get_voice_cache_path text = "./voice_cache/" +:+ h +:+ ".wav"
    /\ String.length h = 32%nat
    /\ Forall (fun c => is_hex_char c = true) (list_ascii_of_string h).
Proof.
  exists (MD5.hexdigest (encode text)). split; [reflexivity|].
  unfold MD5.hexdigest, MD5.digest.
  set (st := fold_left MD5.compress _ MD5.init).
  destruct (hex_shape (MD5.le_bytes 4 (MD5.sA st) ++ MD5.le_bytes 4 (MD5.sB st)
                       ++ MD5.le_bytes 4 (MD5.sC st)
                       ++ MD5.le_bytes 4 (MD5.sD st))) as [Hl Hc].
  - repeat (apply Forall_app; split); apply le_bytes_range.
  - split; [|exact Hc]. rewrite Hl, !length_app, !le_bytes_length.
    reflexivity.
Qed.

(** X17. On a cache miss with an engine loaded and text that is not
    blank, the engine is invoked exactly once, with the reference
    sample as audio prompt when that file exists and without one
    otherwise; when it and the WAV encoding succeed, the bytes are
    written at the cache path and returned, and nothing else on disk
    changes. *)
Theorem generate_voice_miss (env : Env) (eng : VoiceEngine) (text : string)
    (w : World) (wav : tensor eng) (bytes : list Z) :
  voice_engine env = Some eng ->
  blank text = false ->
  files w !! get_voice_cache_path text = None ->
  tts_generate eng text (audio_prompt w) = Ok wav ->
  wav_file eng wav = Ok bytes ->
  exists w',
    generate_voice env text w = (Http200 bytes, w')
    /\ engine_calls w' = Datatypes.S (engine_calls w)
    /\ files w' = <[get_voice_cache_path text := bytes]> (files w).
Proof.
  intros He Hb Hf Hg Hw. unfold generate_voice. rewrite He, Hb, Hf.
  unfold synthesize, bindM, Chat.os_path_exists, gets, modify, lift, ret.
  unfold audio_prompt in Hg. rewrite Hg, Hw.
  eexists. split; [reflexivity|]. split; reflexivity.
Qed.

Lemma generate_voice_miss_witness :
  exists w',
    generate_voice Examples.env_ok "Hello" Examples.world0
    = (Http200 (encode "Hello"), w')
    /\ engine_calls w' = 1%nat
    /\ files w' = <[get_voice_cache_path "Hello" := encode "Hello"]> ∅.
Proof.
  apply (generate_voice_miss Examples.env_ok Examples.echo_engine "Hello"
           Examples.world0 (encode "Hello") (encode "Hello")).
  - reflexivity.
  - vm_compute. reflexivity.
  - vm_compute. reflexivity.
  - reflexivity.
  - reflexivity.
Defined.

(** X18. A failed synthesis is not cached.  When the engine raises, the
    answer is a 500 carrying the message, no file is written, and the
    next call with the same text invokes the engine again. *)
Theorem generate_voice_failure_not_cached (env : Env) (eng : VoiceEngine)
    (text : string) (w : World) (e : string) :
  voice_engine env = Some eng ->
  blank text = false ->
  files w !! get_voice_cache_path text = None ->
  (forall prompt, tts_generate eng text prompt = Raise e) ->
  exists w' w'',
    generate_voice env text w = (HttpError 500 e, w')
    /\ files w' = files w
    /\ engine_calls w' = Datatypes.S (engine_calls w)
    /\ generate_voice env text w' = (HttpError 500 e, w'')
    /\ engine_calls w'' = Datatypes.S (Datatypes.S (engine_calls w)).
Proof.
  intros He Hb Hf Hg.
  assert (Hstep : forall w0, files w0 !! get_voice_cache_path text = None ->
            generate_voice env text w0
            = (HttpError 500 e, count_engine_call w0)).
  { intros w0 Hf0. unfold generate_voice. rewrite He, Hb, Hf0.
    unfold synthesize, bindM, Chat.os_path_exists, gets, modify, lift, ret.
    rewrite Hg. reflexivity. }
  exists (count_engine_call w), (count_engine_call (count_engine_call w)).
  rewrite (Hstep w Hf). rewrite (Hstep (count_engine_call w) Hf).
  repeat split.
Qed.

Lemma generate_voice_failure_not_cached_witness :
  exists w' w'',
    generate_voice MoreExamples.env_engine_fails "Hello" Examples.world0
    = (HttpError 500 "CUDA out of memory", w')
    /\ files w' = ∅
    /\ engine_calls w' = 1%nat
    /\ generate_voice MoreExamples.env_engine_fails "Hello" w'
       = (HttpError 500 "CUDA out of memory", w'')
    /\ engine_calls w'' = 2%nat.
Proof.
  apply (generate_voice_failure_not_cached MoreExamples.env_engine_fails
           MoreExamples.broken_engine "Hello" Examples.world0
           "CUDA out of memory").
  - reflexivity.
  - vm_compute. reflexivity.
  - vm_compute. reflexivity.
  - reflexivity.
Defined.

End VoiceMoreFacts.

(** ** History and export: order and selection *)

Section OrderFacts.

Import History Evals Rowshape.
Local Open Scope string_scope.

Lemma insert_recent_perm (r : turn) (l : list turn) :
  Permutation (insert_recent r l) (r :: l).
Proof.
  induction l as [|r' l IH]; simpl; [reflexivity|].
  destruct (timestamp r' <=? timestamp r)%nat; [reflexivity|].
  rewrite IH. apply perm_swap.
Qed.

Lemma order_desc_perm (rows : list turn) :
  Permutation (order_by_timestamp_desc rows) rows.
Proof.
  induction rows as [|r rows IH]; simpl; [reflexivity|].
  rewrite insert_recent_perm, IH. reflexivity.
Qed.

Lemma insert_recent_sorted (r : turn) (l : list turn) :
  StronglySorted newer l -> StronglySorted newer (insert_recent r l).
Proof.
  induction 1 as [|r' l Hl IH Hr']; simpl.
  - repeat constructor.
  - destruct (timestamp r' <=? timestamp r)%nat eqn:E.
    + apply Nat.leb_le in E. constructor; [constructor; assumption|].
      constructor; [exact E|].
      eapply Forall_impl; [exact Hr'|]. unfold newer. intros x Hx. lia.
    + apply Nat.leb_gt in E. constructor; [exact IH|].
      rewrite insert_recent_perm. constructor; [unfold newer; lia|exact Hr'].
Qed.

Lemma order_desc_sorted (rows : list turn) :
  StronglySorted newer (order_by_timestamp_desc rows).
Proof.
  induction rows as [|r rows IH]; simpl; [constructor|].
  apply insert_recent_sorted, IH.
Qed.





Lemma sorted_rev (l : list turn) :
  StronglySorted newer l -> StronglySorted older (rev l).
Proof.
  induction 1 as [|r l Hl IH Hr]; simpl; [constructor|].
  apply StronglySorted_app_2; [|exact IH|repeat constructor].
  intros x1 x2 H1 H2. apply list_elem_of_In in H1, H2.
  apply in_rev in H1. destruct H2 as [<-|[]].
  rewrite Forall_forall in Hr. apply (Hr x1). apply list_elem_of_In, H1.
Qed.

Lemma sorted_items (l : list turn) :
  StronglySorted older l -> StronglySorted item_older (map to_item l).
Proof.
  induction 1 as [|r l Hl IH Hr]; simpl; constructor; [exact IH|].
  rewrite Forall_forall in Hr. apply Forall_forall. intros x Hx.
  apply list_elem_of_In, in_map_iff in Hx as (r' & <- & Hin).
  apply (Hr r'), list_elem_of_In, Hin.
Qed.

(** X19. The history endpoint returns the most recent rows, oldest
    first: the answer is in non-decreasing timestamp order, it has
    [limit] items or the whole table if that is shorter (and the whole
    table for a negative [limit], which SQLite takes as no bound), and
    every row left out is at most as recent as every row returned. *)
Theorem get_chat_history_most_recent_in_order (limit : Z) (w : World) :
  let result := get_chat_history None limit w in
  StronglySorted item_older result
  /\ length result
     = (if (limit <? 0)%Z then length (turns w)
        else Nat.min (Z.to_nat limit) (length (turns w)))
  /\ exists selected dropped,
       result = map to_item selected
       /\ Permutation (turns w) (dropped ++ selected)%list
       /\ forall o s, In o dropped -> In s selected ->
                      (timestamp o <= timestamp s)%nat.
Proof.
  intros result. subst result. unfold get_chat_history, sql_limit.
  pose proof (order_desc_sorted (turns w)) as Hs.
  pose proof (order_desc_perm (turns w)) as Hp.
  set (sorted := order_by_timestamp_desc (turns w)) in *.
  destruct (limit <? 0)%Z.
  - split; [apply sorted_items, sorted_rev, Hs|].
    split; [rewrite length_map, length_rev; apply Permutation_length, Hp|].
    exists (rev sorted), []. split; [reflexivity|]. split.
    + simpl. rewrite <- Permutation_rev. symmetry. exact Hp.
    + intros o s [].
  - set (n := Z.to_nat limit).
    rewrite <- (firstn_skipn n sorted) in Hs.
    split; [apply sorted_items, sorted_rev;
            apply (StronglySorted_app_1_l _ _ _ Hs)|].
    split.
    { rewrite length_map, length_rev, length_firstn.
      rewrite (Permutation_length Hp). reflexivity. }
    exists (rev (firstn n sorted)), (skipn n sorted).
    split; [reflexivity|]. split.
    + rewrite <- Permutation_rev, Permutation_app_comm, firstn_skipn.
      symmetry. exact Hp.
    + intros o s Ho Hin. apply in_rev in Hin.
      apply (StronglySorted_app_1_elem_of _ _ _ s o Hs);
        apply list_elem_of_In; assumption.
Qed.



End OrderFacts.

(** ** Statistics *)

Section StatsFacts.

Import Store Ingest History Counting Rows Rowshape.
Local Open Scope string_scope.

Lemma typed_count_insert (ty : string) (m : gmap nat item) (i : nat)
    (x : item) :
  m !! i = None ->
  typed_count ty (<[i := x]> m)
  = ((if has_type ty x then 1 else 0) + typed_count ty m)%nat.
Proof.
  intros Hi. unfold typed_count.
  rewrite (Permutation_length
             (filter_Permutation _ _ _ (map_to_list_insert m i x Hi))).
  rewrite filter_cons. simpl.
  destruct (has_type ty x); case_decide; try congruence; reflexivity.
Qed.

Lemma typed_count_empty (ty : string) : typed_count ty ∅ = 0%nat.
Proof. unfold typed_count. rewrite map_to_list_empty. reflexivity. Qed.

Lemma typed_has_type (ty t0 : string) (t : string)
    (m : gmap string string) :
  m !! "type" = Some t0 ->
  has_type ty (Item t m) = String.eqb ty t0.
Proof.
  intros Hm. unfold has_type. simpl. rewrite Hm.
  destruct (String.eqb_spec ty t0) as [->|Hne].
  - apply bool_decide_eq_true_2. reflexivity.
  - apply bool_decide_eq_false_2. congruence.
Qed.

Lemma typed_count_add_all (ty t0 : string) (texts : list string)
    (metas : list (gmap string string)) (c : gmap nat item) :
  length texts = length metas ->
  Forall (fun m : gmap string string => m !! "type" = Some t0) metas ->
  typed_count ty (add_all texts metas c)
  = ((if String.eqb ty t0 then length texts else 0) + typed_count ty c)%nat.
Proof.
  revert metas c. induction texts as [|t texts IH]; intros metas c Hlen Hty.
  - simpl. destruct (String.eqb ty t0); reflexivity.
  - destruct metas as [|m metas]; [discriminate|].
    apply Forall_cons in Hty as [Hm Hty]. simpl.
    rewrite IH by (simpl in Hlen; try lia; exact Hty).
    rewrite typed_count_insert by (apply not_elem_of_dom, is_fresh).
    rewrite (typed_has_type ty t0 t m Hm).
    destruct (String.eqb ty t0); lia.
Qed.

Lemma typed_count_kept (ty ty' : string) (c : gmap nat item) :
  typed_count ty'
    (filter (fun kv => has_type ty (snd kv) = false) c)
  = if String.eqb ty' ty then 0%nat else typed_count ty' c.
Proof.
  induction c as [|i x m Hi IH] using map_ind.
  - rewrite map_filter_empty, typed_count_empty.
    destruct (String.eqb ty' ty); reflexivity.
  - rewrite map_filter_insert. simpl. case_decide as Hx.
    + rewrite !typed_count_insert
        by (try apply map_lookup_filter_None; auto).
      rewrite IH. destruct (String.eqb_spec ty' ty) as [->|Hne].
      * rewrite Hx. reflexivity.
      * reflexivity.
    + rewrite delete_id by exact Hi. rewrite IH.
      rewrite typed_count_insert by exact Hi.
      apply not_false_iff_true in Hx.
      destruct (String.eqb_spec ty' ty) as [->|Hne]; [reflexivity|].
      assert (Hx' : has_type ty' x = false).
      { unfold has_type in *. apply bool_decide_eq_true_1 in Hx.
        apply bool_decide_eq_false_2. congruence. }
      rewrite Hx'. reflexivity.
Qed.

Lemma knowledge_counts_ok (env : Env) (w : World) :
  fault env StoreGet = None ->
  knowledge_counts env w
  = (Ok (typed_count "fact" (collection w),
         typed_count "philosophy" (collection w)), w).
Proof.
  intros Hg. unfold knowledge_counts, try_except, bindM, collection_get,
    bindM, guard, gets, ret. rewrite Hg. cbv beta iota.
  unfold typed_count. rewrite !length_map. reflexivity.
Qed.

Lemma stats_conversation_fields (env : Env) (w : World) :
  conversations (get_stats env None w) = length (turns w)
  /\ text_conversations (get_stats env None w) = count_type "text" (turns w)
  /\ image_conversations (get_stats env None w)
     = count_type "image" (turns w).
Proof.
  unfold get_stats.
  destruct (match fst (knowledge_counts env w) with
            | Ok counts => counts
            | Raise _ => (0%nat, 0%nat)
            end) as [f p].
  repeat split.
Qed.

Lemma stats_knowledge_fields (env : Env) (q : option string) (w : World) :
  fault env StoreGet = None ->
  facts (get_stats env q w) = typed_count "fact" (collection w)
  /\ philosophy (get_stats env q w) = typed_count "philosophy" (collection w).
Proof.
  intros Hg. unfold get_stats. rewrite (knowledge_counts_ok env w Hg).
  simpl fst. cbv beta iota.
  destruct q; split; reflexivity.
Qed.

Lemma count_type_snoc (ty : string) (rows : list turn) (row : turn) :
  count_type ty (rows ++ [row])
  = (count_type ty rows + if String.eqb (type_ row) ty then 1 else 0)%nat.
Proof.
  unfold count_type. rewrite List.filter_app, length_app. simpl.
  destruct (String.eqb (type_ row) ty); reflexivity.
Qed.

(** X21. After a facts ingestion that inserted rows, [/stats] reports as
    [facts] the number of usable rows of that file, whatever the
    count was before, and reports the [philosophy] count unchanged. *)
Theorem get_stats_after_facts_ingestion (env : Env) (path : string)
    (w : World) (rows : list (gmap string string)) (q : option string) :
  fault env StoreGet = None ->
  fault env StoreDelete = None ->
  fault env StoreAdd = None ->
  csv_rows env path = Ok rows ->
  List.filter usable rows <> [] ->
  let w' := snd (process_csv_ingestion env path w) in
  facts (get_stats env q w') = length (List.filter usable rows)
  /\ philosophy (get_stats env q w') = philosophy (get_stats env q w).
Proof.
  intros Hg Hd Ha Hrows Hne w'.
  set (used := List.filter usable rows) in *.
  destruct (process_csv_replaces env Hg Hd Ha path w rows
              (map row_document used) (map row_metadata used) Hrows)
    as (w1 & Hrun & Hrep & _).
  { apply collect_rows_usable. }
  { destruct used; [congruence|discriminate]. }
  subst w'. rewrite Hrun. simpl snd. rewrite Hrep.
  destruct (stats_knowledge_fields env q w Hg) as [_ Hp0].
  match goal with
  | |- context [get_stats env q ?x] =>
      destruct (stats_knowledge_fields env q x Hg) as [Hf1 Hp1]
  end.
  rewrite Hf1, Hp1, Hp0.
  change (collection (set_collection ?c w)) with c.
  assert (Hty : Forall (fun m : gmap string string => m !! "type" = Some "fact")
                  (map row_metadata used)).
  { apply Forall_forall. intros m Hm.
    apply list_elem_of_In, in_map_iff in Hm as (row & <- & _). reflexivity. }
  rewrite !(typed_count_add_all _ "fact") by (rewrite ?length_map; auto).
  rewrite !typed_count_kept, length_map. simpl. split; lia.
Qed.

Lemma get_stats_after_facts_ingestion_witness :
  let w' := snd (process_csv_ingestion Examples.env_ok "facts.csv"
                   Examples.world_c) in
  facts (get_stats Examples.env_ok None w') = 2%nat
  /\ philosophy (get_stats Examples.env_ok None w') = 1%nat.
Proof.
  destruct (get_stats_after_facts_ingestion Examples.env_ok "facts.csv"
              Examples.world_c Examples.facts_rows None
              eq_refl eq_refl eq_refl eq_refl) as [Hf Hp].
  - vm_compute. discriminate.
  - split; [rewrite Hf; reflexivity|rewrite Hp; vm_compute; reflexivity].
Defined.

(** X22. The conversation counters of [/stats] follow the chat turns.  A
    text turn that completes raises the total and the text count by
    one, and any other ending of it changes no counter; an image turn
    answered with 200 raises the total and the image count by one, and
    one answered with an error changes no counter. *)
Theorem get_stats_follows_turns (env : Env) (message filename : string)
    (la lo : float) (pulls : nat) (upload : list Z) (w : World) :
  let total := fun x => conversations (get_stats env None x) in
  let texts := fun x => text_conversations (get_stats env None x) in
  let images := fun x => image_conversations (get_stats env None x) in
  match Chat.chat_text env message la lo pulls w with
  | (Chat.Completed, w') =>
      total w' = Datatypes.S (total w) /\ texts w' = Datatypes.S (texts w)
      /\ images w' = images w
  | (_, w') => total w' = total w /\ texts w' = texts w
               /\ images w' = images w
  end
  /\ match Chat.chat_image env message filename upload w with
     | (Http200 _, w') =>
         total w' = Datatypes.S (total w) /\ texts w' = texts w
         /\ images w' = Datatypes.S (images w)
     | (HttpError _ _, w') => total w' = total w /\ texts w' = texts w
                              /\ images w' = images w
     end.
Proof.
  intros total texts images. subst total texts images. cbv beta.
  assert (Hsame : forall w', turns w' = turns w ->
            conversations (get_stats env None w')
            = conversations (get_stats env None w)
            /\ text_conversations (get_stats env None w')
               = text_conversations (get_stats env None w)
            /\ image_conversations (get_stats env None w')
               = image_conversations (get_stats env None w)).
  { intros w' Ht.
    destruct (stats_conversation_fields env w) as (-> & -> & ->).
    destruct (stats_conversation_fields env w') as (-> & -> & ->).
    rewrite Ht. repeat split. }
  assert (Hplus : forall w' row, turns w' = (turns w ++ [row])%list ->
            conversations (get_stats env None w')
            = Datatypes.S (conversations (get_stats env None w))
            /\ text_conversations (get_stats env None w')
               = (text_conversations (get_stats env None w)
                  + if String.eqb (type_ row) "text" then 1 else 0)%nat
            /\ image_conversations (get_stats env None w')
               = (image_conversations (get_stats env None w)
                  + if String.eqb (type_ row) "image" then 1 else 0)%nat).
  { intros w' row Ht.
    destruct (stats_conversation_fields env w) as (-> & -> & ->).
    destruct (stats_conversation_fields env w') as (-> & -> & ->).
    rewrite Ht, !count_type_snoc, length_app. simpl. repeat split. lia. }
  split.
  - pose proof (chat_text_turns_cases env message la lo pulls w) as H.
    destruct (Chat.chat_text env message la lo pulls w) as [[| |e] w'];
      try (apply Hsame, H).
    destruct H as (row & Hrow & _ & _ & Hty & _).
    destruct (Hplus w' row Hrow) as (-> & -> & ->). rewrite Hty. simpl.
    repeat split; lia.
  - pose proof (chat_image_turns_cases env message filename upload w) as H.
    destruct (Chat.chat_image env message filename upload w)
      as [[bot|status detail] w'].
    + destruct H as (row & Hrow & _ & _ & _ & Hty & _).
      destruct (Hplus w' row Hrow) as (-> & -> & ->). rewrite Hty. simpl.
      repeat split; lia.
    + apply Hsame, H.
Qed.

(** X23. The two halves of [/stats] fail separately and silently.  When
    the store's lookup raises, both knowledge counts are reported as
    zero, whatever is stored, while the conversation counters are
    still those of the table; when the database query raises, the
    three conversation counters are zero while the knowledge counts
    are still those of the collection. *)
Theorem get_stats_failures_are_zeros (env : Env) (w : World) (e : string) :
  (fault env StoreGet = Some e ->
   facts (get_stats env None w) = 0%nat
   /\ philosophy (get_stats env None w) = 0%nat
   /\ conversations (get_stats env None w) = length (turns w))
  /\ (fault env StoreGet = None ->
      conversations (get_stats env (Some e) w) = 0%nat
      /\ text_conversations (get_stats env (Some e) w) = 0%nat
      /\ image_conversations (get_stats env (Some e) w) = 0%nat
      /\ facts (get_stats env (Some e) w)
         = typed_count "fact" (collection w)
      /\ philosophy (get_stats env (Some e) w)
         = typed_count "philosophy" (collection w)).
Proof.
  split.
  - intros Hg. unfold get_stats, knowledge_counts, try_except, bindM,
      collection_get, bindM, guard, raise, ret.
    rewrite Hg. repeat split.
  - intros Hg. unfold get_stats. rewrite (knowledge_counts_ok env w Hg).
    repeat split.
Qed.

Lemma get_stats_failures_are_zeros_witness :
  facts (get_stats Examples.env_get_down None Examples.world_c) = 0%nat
  /\ typed_count "fact" (collection Examples.world_c) = 1%nat.
Proof.
  destruct (get_stats_failures_are_zeros Examples.env_get_down
              Examples.world_c "collection unavailable") as [H _].
  destruct (H eq_refl) as (Hf & _). split; [exact Hf|].
  vm_compute. reflexivity.
Defined.

End StatsFacts.

(** ** The persona file after a load *)

Section PersonaMoreFacts.

Import Persona.
Local Open Scope string_scope.

Lemma no_missing_complete (d : gmap string string) :
  missing_some d = false -> Forall (fun k => is_Some (d !! k)) schema_keys.
Proof.
  intros Hm. apply Forall_forall. intros k Hk.
  destruct (d !! k) as [v|] eqn:E; [eauto|].
  exfalso. assert (Ht : missing_some d = true); [|congruence].
  apply missing_some_true. exists k. split; [apply list_elem_of_In, Hk|exact E].
Qed.

(** After a load that returns, the file holds the returned mapping, and
    the load wrote it at most once. *)
Lemma load_leaves_file (w w' : World) (p : gmap string string) :
  load_persona_config w = (Ok p, w') ->
  config w' = Object p /\ (w' = w \/ w' = set_config (Object p) w).
Proof.
  destruct (config w) as [|e|d] eqn:Hc.
  - rewrite (load_absent w Hc), default_persona_is_complete.
    intros [= <- <-]. split; [reflexivity|right; reflexivity].
  - rewrite (load_malformed w e Hc). discriminate.
  - rewrite (load_object w d Hc). destruct (missing_some d) eqn:Hm.
    + intros [= <- <-]. split; [reflexivity|right; reflexivity].
    + rewrite (complete_union d (no_missing_complete d Hm)).
      intros [= <- <-]. split; [exact Hc|left; reflexivity].
Qed.

(** A world whose file is the one a load left loads to the same mapping
    without writing. *)
Lemma load_after_load (w w1 w' : World) (p : gmap string string) :
  load_persona_config w = (Ok p, w1) ->
  config w' = config w1 ->
  load_persona_config w' = (Ok p, w').
Proof.
  intros Hl Hc. apply load_complete_file.
  - rewrite Hc. apply (load_leaves_file w w1 p Hl).
  - apply (load_complete w w1 p Hl).
Qed.

(** X24. Whatever the file was, a load that returns leaves the file
    holding exactly the mapping it returned, has written the file at most
    once and touched nothing else, and reaches a fixed point: loading
    again returns the same mapping and changes nothing.  On a file that
    already has every recognized key the load returns the file's mapping
    and writes nothing at all. *)
Theorem load_persona_config_settles (w w' : World) (p : gmap string string) :
  load_persona_config w = (Ok p, w') ->
  config w' = Object p
  /\ load_persona_config w' = (Ok p, w')
  /\ (config_writes w' <= Datatypes.S (config_writes w))%nat
  /\ Chat.same_but_config w w'
  /\ (forall d, config w = Object d ->
        Forall (fun k => is_Some (d !! k)) schema_keys ->
        p = d /\ w' = w).
Proof.
  intros Hl. destruct (load_leaves_file w w' p Hl) as [Hc Hw].
  split; [exact Hc|].
  split; [apply (load_after_load w w' w' p Hl eq_refl)|].
  split; [destruct Hw as [->| ->]; simpl; lia|].
  split; [destruct Hw as [->| ->]; repeat split|].
  intros d Hd Hall. rewrite (load_complete_file w d Hd Hall) in Hl.
  injection Hl as <- <-. split; reflexivity.
Qed.

Lemma load_persona_config_settles_witness :
  load_persona_config
    (set_config (Object (Examples.old_persona ∪ list_to_map defaults))
       Examples.old_world)
  = (Ok (Examples.old_persona ∪ list_to_map defaults),
     set_config (Object (Examples.old_persona ∪ list_to_map defaults))
       Examples.old_world).
Proof.
  refine (proj1 (proj2 (load_persona_config_settles Examples.old_world _ _ _))).
  rewrite (load_object _ Examples.old_persona) by reflexivity.
  replace (missing_some Examples.old_persona) with true
    by (vm_compute; reflexivity).
  reflexivity.
Defined.

End PersonaMoreFacts.

(** ** The partitions of the collection *)

Section PartitionFacts.

Import Store Ingest.
Local Open Scope string_scope.

Lemma clear_partition_others (env : Env) (ty : string) (w : World)
    (i : nat) (it : item) :
  has_type ty it = false ->
  collection (snd (clear_partition env ty w)) !! i = Some it
  <-> collection w !! i = Some it.
Proof.
  intros Hty.
  unfold clear_partition, try_except, bindM, collection_get,
    collection_delete, bindM, guard, gets, modify, ret, raise.
  destruct (fault env StoreGet) as [e|]; [reflexivity|].
  cbv beta iota.
  destruct (map fst _) as [|j ids] eqn:E; [reflexivity|].
  destruct (fault env StoreDelete) as [e|]; [reflexivity|].
  cbn [snd]. change (collection (set_collection ?c w)) with c.
  rewrite <- E, delete_typed, map_lookup_filter_Some. simpl. tauto.
Qed.

Lemma add_all_others (ty : string) (texts : list string)
    (metas : list (gmap string string)) (c : gmap nat item)
    (i : nat) (it : item) :
  Forall (fun m : gmap string string => m !! "type" = Some ty) metas ->
  has_type ty it = false ->
  add_all texts metas c !! i = Some it <-> c !! i = Some it.
Proof.
  intros Hall Hty. split; [|apply add_all_keeps].
  intros H. apply add_all_origin in H as [H|H]; [exact H|].
  exfalso. apply in_combine_r in H. rewrite Forall_forall in Hall.
  apply list_elem_of_In, Hall in H. unfold has_type in Hty.
  apply bool_decide_eq_false_1 in Hty. contradiction.
Qed.

Lemma add_texts_others (env : Env) (ty : string) (texts : list string)
    (metas : list (gmap string string)) (w : World) (i : nat) (it : item) :
  Forall (fun m : gmap string string => m !! "type" = Some ty) metas ->
  has_type ty it = false ->
  collection (snd (add_texts env texts metas w)) !! i = Some it
  <-> collection w !! i = Some it.
Proof.
  intros Hall Hty.
  destruct (add_texts_cases env texts metas w) as [(e & _ & ->)|[_ ->]];
    [reflexivity|].
  apply (add_all_others ty); assumption.
Qed.

(** X25. An upload never touches the other partition, whatever fails on
    the way: after a facts ingestion every stored item that is not a
    fact is there exactly as before, under the same id, and no item of
    another type has appeared; likewise for a philosophy ingestion and
    the items that are not philosophy. *)
Theorem ingestion_keeps_other_types (env : Env) (path : string)
    (is_pdf : bool) (w : World) :
  (forall i it, has_type "fact" it = false ->
     collection (snd (process_csv_ingestion env path w)) !! i = Some it
     <-> collection w !! i = Some it)
  /\ (forall i it, has_type "philosophy" it = false ->
        collection (snd (process_philosophy_ingestion env path is_pdf w)) !! i
        = Some it
        <-> collection w !! i = Some it).
Proof.
  split; intros i it Hty.
  - unfold process_csv_ingestion, try_except, bindM at 1, lift.
    destruct (csv_rows env path) as [rows|e]; [|reflexivity].
    pose proof (collect_rows_shape rows [] [] eq_refl (Forall_nil_2 _)) as Hsh.
    destruct (fold_left collect_row rows ([], [])) as [docs metas].
    destruct Hsh as [_ Hmetas].
    destruct docs as [|d docs]; [reflexivity|].
    unfold bindM at 1.
    pose proof (clear_partition_others env "fact" w i it Hty) as Hclear.
    destruct (clear_partition env "fact" w) as [[[]|e] w1];
      cbn [snd] in Hclear; [|exact Hclear].
    unfold bindM.
    pose proof (add_texts_others env "fact" (d :: docs) metas w1 i it
                  Hmetas Hty) as Hadd.
    destruct (add_texts env (d :: docs) metas w1) as [[[]|e] w2];
      cbn [snd] in Hadd |- *; rewrite Hadd; exact Hclear.
  - unfold process_philosophy_ingestion, try_except, bindM at 1, lift.
    destruct (extract_text env path is_pdf) as [text|e]; [|reflexivity].
    destruct (negb (truthy (strip text))); [reflexivity|].
    destruct (split_text env text) as [|c chunks]; [reflexivity|].
    unfold bindM at 1.
    pose proof (clear_partition_others env "philosophy" w i it Hty) as Hclear.
    destruct (clear_partition env "philosophy" w) as [[[]|e] w1];
      cbn [snd] in Hclear; [|exact Hclear].
    unfold bindM.
    match goal with
    | |- context [add_texts env ?ts ?ms w1] =>
        assert (Hmetas : Forall (fun m : gmap string string =>
                                   m !! "type" = Some "philosophy") ms);
        [|pose proof (add_texts_others env "philosophy" ts ms w1 i it
                        Hmetas Hty) as Hadd;
          destruct (add_texts env ts ms w1) as [[[]|e] w2]]
    end.
    + generalize (c :: chunks). intros l.
      induction l as [|x l IH]; constructor; [reflexivity|exact IH].
    + cbn [snd] in Hadd |- *. rewrite Hadd. exact Hclear.
    + cbn [snd] in Hadd |- *. rewrite Hadd. exact Hclear.
Qed.

End PartitionFacts.

(** ** A completed turn in the exports *)

Section TurnExportFacts.

Import Persona Chat Evals.
Local Open Scope string_scope.






End TurnExportFacts.

(** ** Timeline *)

Section TimelineFacts.

Import Store Ingest Rows Counting Timeline.
Local Open Scope string_scope.

Lemma ascii_compare_lt_trans (a b c : ascii) :
  Ascii.compare a b = Lt -> Ascii.compare b c = Lt -> Ascii.compare a c = Lt.
Proof.
  unfold Ascii.compare. rewrite !N.compare_lt_iff. lia.
Qed.

Lemma string_compare_lt_trans (s1 s2 s3 : string) :
  String.compare s1 s2 = Lt -> String.compare s2 s3 = Lt ->
  String.compare s1 s3 = Lt.
Proof.
  revert s2 s3. induction s1 as [|a s1 IH]; intros [|b s2] [|c s3];
    simpl; try discriminate; try reflexivity.
  destruct (Ascii.compare a b) eqn:Hab; try discriminate;
    destruct (Ascii.compare b c) eqn:Hbc; try discriminate; intros H1 H2.
  - apply Ascii.compare_eq_iff in Hab, Hbc. subst.
    replace (Ascii.compare c c) with Eq
      by (symmetry; unfold Ascii.compare; apply N.compare_refl).
    eapply IH; eassumption.
  - apply Ascii.compare_eq_iff in Hab. subst. rewrite Hbc. reflexivity.
  - apply Ascii.compare_eq_iff in Hbc. subst. rewrite Hab. reflexivity.
  - rewrite (ascii_compare_lt_trans a b c Hab Hbc). reflexivity.
Qed.

Lemma string_leb_cases (s1 s2 : string) :
  String.leb s1 s2 = true <-> String.compare s1 s2 = Lt \/ s1 = s2.
Proof.
  unfold String.leb. split.
  - destruct (String.compare s1 s2) eqn:E; [|auto|discriminate].
    intros _. right. apply String.compare_eq_iff, E.
  - intros [->| ->]; [reflexivity|].
    destruct (String.compare s2 s2) eqn:E; try reflexivity.
    pose proof (String.compare_antisym s2 s2) as Ha. rewrite E in Ha.
    discriminate.
Qed.

Lemma string_leb_trans (s1 s2 s3 : string) :
  String.leb s1 s2 = true -> String.leb s2 s3 = true ->
  String.leb s1 s3 = true.
Proof.
  rewrite !string_leb_cases. intros [H1| ->] [H2| ->]; auto.
  left. eapply string_compare_lt_trans; eassumption.
Qed.

Lemma insert_by_year_perm (e : timeline_entry) (l : list timeline_entry) :
  Permutation (insert_by_year e l) (e :: l).
Proof.
  induction l as [|e' l IH]; simpl; [reflexivity|].
  destruct (String.leb (year e) (year e')); [reflexivity|].
  rewrite IH. apply perm_swap.
Qed.

Lemma sort_by_year_perm (l : list timeline_entry) :
  Permutation (sort_by_year l) l.
Proof.
  induction l as [|e l IH]; simpl; [reflexivity|].
  rewrite insert_by_year_perm, IH. reflexivity.
Qed.

Lemma insert_by_year_sorted (e : timeline_entry) (l : list timeline_entry) :
  StronglySorted year_le l -> StronglySorted year_le (insert_by_year e l).
Proof.
  induction 1 as [|e' l Hl IH He']; simpl.
  - repeat constructor.
  - destruct (String.leb (year e) (year e')) eqn:E.
    + constructor; [constructor; assumption|].
      constructor; [exact E|].
      eapply Forall_impl; [exact He'|]. unfold year_le. intros x Hx.
      eapply string_leb_trans; eassumption.
    + constructor; [exact IH|].
      rewrite insert_by_year_perm. constructor; [|exact He'].
      unfold year_le.
      destruct (String.leb_total (year e) (year e')) as [H|H];
        [congruence|exact H].
Qed.

Lemma sort_by_year_sorted (l : list timeline_entry) :
  StronglySorted year_le (sort_by_year l).
Proof.
  induction l as [|e l IH]; simpl; [constructor|].
  apply insert_by_year_sorted, IH.
Qed.

Lemma typed_items_length (ty : string) (c : gmap nat item) :
  length (typed_items ty c) = typed_count ty c.
Proof. unfold typed_items, typed_count. apply length_map. Qed.

(** The endpoint as a function of the stored facts. *)
Lemma get_timeline_data_run (env : Env) (re_search : string -> option string)
    (w : World) :
  get_timeline_data env re_search w
  = (Ok match fault env StoreGet with
        | Some _ => []
        | None =>
            sort_by_year
              (map (entry_of re_search)
                 (firstn 100 (typed_items "fact" (collection w))))
        end, w).
Proof.
  unfold get_timeline_data, try_except, bindM, collection_get_items, bindM,
    guard, gets, raise, ret.
  destruct (fault env StoreGet) as [e|]; [reflexivity|].
  cbv beta iota.
  destruct (firstn 100 (typed_items "fact" (collection w))); reflexivity.
Qed.

(** X27. The timeline endpoint never raises and changes nothing.  Its
    answer is in non-decreasing order of the year read as text, and has
    one entry per stored fact up to the limit of 100; when the lookup in
    the store raises, the answer is the empty list. *)
Theorem get_timeline_data_sorted (env : Env)
    (re_search : string -> option string) (w : World) :
  exists entries,
    get_timeline_data env re_search w = (Ok entries, w)
    /\ StronglySorted year_le entries
    /\ length entries
       = match fault env StoreGet with
         | Some _ => 0%nat
         | None => Nat.min 100 (typed_count "fact" (collection w))
         end.
Proof.
  eexists. split; [apply get_timeline_data_run|].
  destruct (fault env StoreGet) as [e|].
  - split; [constructor|reflexivity].
  - split; [apply sort_by_year_sorted|].
    rewrite (Permutation_length (sort_by_year_perm _)).
    rewrite length_map, length_firstn, typed_items_length. reflexivity.
Qed.

Lemma typed_items_insert (ty : string) (m : gmap nat item) (i : nat)
    (x : item) :
  m !! i = None ->
  Permutation (typed_items ty (<[i := x]> m))
    ((if has_type ty x then [x] else []) ++ typed_items ty m).
Proof.
  intros Hi. unfold typed_items.
  rewrite (Permutation_map snd
             (filter_Permutation _ _ _ (map_to_list_insert m i x Hi))).
  rewrite filter_cons. simpl.
  destruct (has_type ty x); case_decide; try congruence; reflexivity.
Qed.

Lemma typed_items_add_all (ty : string) (texts : list string)
    (metas : list (gmap string string)) (c : gmap nat item) :
  length texts = length metas ->
  Forall (fun m : gmap string string => m !! "type" = Some ty) metas ->
  Permutation (typed_items ty (add_all texts metas c))
    (typed_items ty c
     ++ map (fun tm => Item (fst tm) (snd tm)) (combine texts metas)).
Proof.
  revert metas c. induction texts as [|t texts IH]; intros metas c Hlen Hty.
  - simpl. rewrite app_nil_r. reflexivity.
  - destruct metas as [|m metas]; [discriminate|].
    apply Forall_cons in Hty as [Hm Hty]. simpl.
    rewrite IH by (simpl in Hlen; try lia; exact Hty).
    rewrite typed_items_insert by (apply not_elem_of_dom, is_fresh).
    rewrite (typed_has_type ty ty t m Hm), String.eqb_refl. simpl.
    apply Permutation_middle.
Qed.

Lemma typed_items_kept (ty : string) (c : gmap nat item) :
  typed_items ty (filter (fun kv => has_type ty (snd kv) = false) c) = [].
Proof.
  apply length_zero_iff_nil.
  rewrite typed_items_length, typed_count_kept, String.eqb_refl. reflexivity.
Qed.

Lemma combine_map {A B C} (f : A -> B) (g : A -> C) (l : list A) :
  combine (map f l) (map g l) = map (fun x => (f x, g x)) l.
Proof. induction l as [|x l IH]; simpl; congruence. Qed.

(** The entry shown for the item a usable row was stored as. *)
Lemma entry_of_row (re_search : string -> option string)
    (row : gmap string string) :
  usable row = true ->
  entry_of re_search (Item (row_document row) (row_metadata row))
  = row_entry re_search row.
Proof.
  unfold usable, entry_of, row_entry, row_metadata. cbn [metadata document].
  destruct (row_text row) as [t|]; [|discriminate]. intros Ht.
  replace ((list_to_map
              [("source", "upload"); ("type", "fact");
               ("year", default "Unknown" (row !! "year"));
               ("raw_text", default EmptyString (Some t))]
            : gmap string string) !! "raw_text")
    with (Some t) by reflexivity.
  replace ((list_to_map
              [("source", "upload"); ("type", "fact");
               ("year", default "Unknown" (row !! "year"));
               ("raw_text", default EmptyString (Some t))]
            : gmap string string) !! "year")
    with (Some (default "Unknown" (row !! "year"))) by reflexivity.
  cbv [default from_option id]. rewrite Ht.
  destruct (row !! "year") as [y|]; [|reflexivity].
  destruct (truthy y), (String.eqb y "Unknown"); reflexivity.
Qed.

(** X28. What is uploaded is what the timeline shows.  After a facts
    ingestion that inserted at most 100 rows (store answering), the
    timeline consists of exactly one entry per usable row of the file,
    in year order: the row's text as uploaded, with the row's year, or,
    when the row has no year, an empty one or [Unknown], the year found
    in the text, or [Memory] if none is found.  The facts stored before
    the upload no longer appear. *)
Theorem timeline_after_facts_ingestion (env : Env)
    (re_search : string -> option string) (path : string) (w : World)
    (rows : list (gmap string string)) :
  fault env StoreGet = None ->
  fault env StoreDelete = None ->
  fault env StoreAdd = None ->
  csv_rows env path = Ok rows ->
  List.filter usable rows <> [] ->
  (length (List.filter usable rows) <= 100)%nat ->
  let w' := snd (process_csv_ingestion env path w) in
  exists entries,
    get_timeline_data env re_search w' = (Ok entries, w')
    /\ Permutation entries
         (map (row_entry re_search) (List.filter usable rows))
    /\ StronglySorted year_le entries.
Proof.
  intros Hg Hd Ha Hrows Hne Hmax w'.
  set (used := List.filter usable rows) in *.
  destruct (process_csv_replaces env Hg Hd Ha path w rows
              (map row_document used) (map row_metadata used) Hrows)
    as (w1 & Hrun & Hrep & _).
  { apply collect_rows_usable. }
  { destruct used; [congruence|discriminate]. }
  assert (Hw' : w' = w1) by (unfold w'; rewrite Hrun; reflexivity).
  rewrite Hw'. clear Hw' w'.
  assert (Hty : Forall (fun m : gmap string string => m !! "type" = Some "fact")
                  (map row_metadata used)).
  { apply Forall_forall. intros m Hm.
    apply list_elem_of_In, in_map_iff in Hm as (row & <- & _). reflexivity. }
  assert (Hitems : Permutation (typed_items "fact" (collection w1))
            (map (fun row => Item (row_document row) (row_metadata row)) used)).
  { rewrite Hrep. change (collection (set_collection ?c w)) with c.
    rewrite (typed_items_add_all "fact") by (rewrite ?length_map; auto).
    rewrite typed_items_kept, combine_map, map_map. reflexivity. }
  eexists. split; [apply get_timeline_data_run|]. rewrite Hg.
  split; [|apply sort_by_year_sorted].
  rewrite sort_by_year_perm.
  rewrite firstn_all2
    by (rewrite (Permutation_length Hitems), length_map; exact Hmax).
  rewrite (Permutation_map (entry_of re_search) Hitems), map_map.
  erewrite map_ext_in; [reflexivity|].
  intros row Hin. apply entry_of_row.
  unfold used in Hin. apply filter_In in Hin. apply Hin.
Qed.

Lemma timeline_after_facts_ingestion_witness :
  exists entries,
    fst (get_timeline_data Examples.env_ok (fun _ => None)
           (snd (process_csv_ingestion Examples.env_ok "facts.csv"
                   Examples.world_c)))
    = Ok entries
    /\ Permutation entries
         [ {| year := "1990"; text := "A" |};
           {| year := "Memory"; text := "B" |} ].
Proof.
  destruct (timeline_after_facts_ingestion Examples.env_ok (fun _ => None)
              "facts.csv" Examples.world_c Examples.facts_rows
              eq_refl eq_refl eq_refl eq_refl) as (entries & Hrun & Hperm & _).
  - vm_compute. discriminate.
  - vm_compute. lia.
  - exists entries. rewrite Hrun. split; [reflexivity|exact Hperm].
Defined.

End TimelineFacts.
